(** * Currency converter (src/src/App.jsx): model and properties

    The component keeps seven pieces of React state, loads a table of
    exchange rates once when it is mounted, filters what is typed in the
    amount field, and multiplies the amount by the selected rate when the
    convert button is pressed.

    The development has these parts:
    - [JS]: the fragment of ECMAScript the component relies on (strings as
      sequences of UTF-16 code units, binary64 numbers, [parseFloat],
      [Number.prototype.toFixed], a backtracking matcher for the regular
      expression of the input filter, own-property order of objects);
    - [App]: the component itself: state, handlers, the asynchronous rate
      loader, the rendered view and the event loop around them;
    - [Spec]: the notions in which the properties are stated;
    - [Sample]: concrete documents, states and sessions;
    - the properties: C1 to C10, then X1 to X16 on the rest of the
      component's behaviour. *)

From Stdlib Require Import ZArith NArith List String Ascii Bool Lia.
From Stdlib Require Import Floats.SpecFloat.
Import ListNotations.

Set Implicit Arguments.

(* ================================================================== *)
(** * The ECMAScript fragment *)
(* ================================================================== *)

Module JS.

(** ** Strings *)

(** A JavaScript string is a finite sequence of UTF-16 code units. *)
Definition code_unit := N.
Definition js_string := list code_unit.

(** String literals of the source, written as Rocq strings (all of them are
    ASCII, so one character is one code unit). *)
Definition str (s : string) : js_string :=
map N_of_ascii (list_ascii_of_string s).

Fixpoint js_string_eqb (a b : js_string) : bool :=
match a, b with
| [], [] => true
| x :: a', y :: b' => N.eqb x y && js_string_eqb a' b'
| _, _ => false
end.

(** ToBoolean on a string: only the empty string is falsy. *)
Definition truthy_string (s : js_string) : bool :=
match s with
| [] => false
| _ :: _ => true
end.

Fixpoint starts_with (p s : js_string) : bool :=
match p, s with
| [], _ => true
| x :: p', y :: s' => N.eqb x y && starts_with p' s'
| _ :: _, [] => false
end.

(** [\d] of a regular expression and DecimalDigit of the numeric grammar:
    the ten ASCII digits, nothing else. *)
Definition is_digit (c : code_unit) : bool :=
(48 <=? c)%N && (c <=? 57)%N.

(** WhiteSpace and LineTerminator code points, all of them in the basic
    plane: what TrimString removes. *)
Definition is_white_space (c : code_unit) : bool :=
existsb (N.eqb c)
  [9; 10; 11; 12; 13; 32; 160; 5760; 8192; 8193; 8194; 8195; 8196; 8197;
   8198; 8199; 8200; 8201; 8202; 8232; 8233; 8239; 8287; 12288; 65279]%N.

Fixpoint trim_start (s : js_string) : js_string :=
match s with
| c :: s' => if is_white_space c then trim_start s' else s
| [] => []
end.

(** The longest prefix of digits, and what follows it. *)
Fixpoint span_digits (s : js_string) : js_string * js_string :=
match s with
| c :: s' =>
    if is_digit c
    then let (ds, rest) := span_digits s' in (c :: ds, rest)
    else ([], s)
| [] => ([], [])
end.

Definition digit_value (c : code_unit) : Z := Z.of_N c - 48.

(** The mathematical value of a sequence of decimal digits. *)
Definition digits_value (ds : js_string) : Z :=
fold_left (fun acc c => 10 * acc + digit_value c)%Z ds 0%Z.

(** [String.prototype.toUpperCase] on the ASCII range: the letters a-z map
    to A-Z and the other ASCII code units to themselves.  The full Unicode
    case mapping of code units from 128 on is not modelled: the result is
    [None] there. *)
Definition upper_code_unit (c : code_unit) : option code_unit :=
if (c <? 128)%N
then Some (if (97 <=? c)%N && (c <=? 122)%N then (c - 32)%N else c)
else None.

Fixpoint toUpperCase (s : js_string) : option js_string :=
match s with
| [] => Some []
| c :: s' =>
    match upper_code_unit c, toUpperCase s' with
    | Some u, Some r => Some (u :: r)
    | _, _ => None
    end
end.

(** ** Numbers *)

(** A Number is an IEEE 754 binary64 value with a single NaN. *)
Definition number := spec_float.
Definition prec : Z := 53.
Definition emax : Z := 1024.

Definition js_NaN : number := S754_nan.
Definition num_zero : number := S754_zero false.

Definition isNaN (x : number) : bool :=
match x with
| S754_nan => true
| _ => false
end.

(** [x * y], [x <= y] and [x < y] on Numbers. *)
Definition num_mul (x y : number) : number := SFmul prec emax x y.
Definition num_leb (x y : number) : bool := SFleb x y.
Definition num_ltb (x y : number) : bool := SFltb x y.

Definition number_eqb (x y : number) : bool :=
match x, y with
| S754_zero a, S754_zero b => Bool.eqb a b
| S754_infinity a, S754_infinity b => Bool.eqb a b
| S754_nan, S754_nan => true
| S754_finite a m e, S754_finite b m' e' =>
    Bool.eqb a b && Pos.eqb m m' && Z.eqb e e'
| _, _ => false
end.

(** The Number nearest to [(-1)^neg * m * 10^e] (ties to even): the rounding
    of the mathematical value of a decimal literal. *)
Definition number_of_decimal (neg : bool) (m e : Z) : number :=
match m with
| Zpos p =>
    if (0 <=? e)%Z
    then binary_normalize prec emax (cond_Zopp neg (Zpos p * 10 ^ e)) 0 neg
    else SFdiv prec emax (S754_finite neg p 0)
                         (S754_finite false (Z.to_pos (10 ^ (- e))) 0)
| _ => S754_zero neg
end.

(** ** parseFloat *)

(** ExponentPart, when one starts [s]: its value; [0] when none does (an
    [e] that no digit follows is not part of the literal). *)
Definition exponent_digits (sign : Z) (s : js_string) : Z :=
match fst (span_digits s) with
| [] => 0%Z
| ds => (sign * digits_value ds)%Z
end.

Definition parse_exponent (s : js_string) : Z :=
match s with
| c :: s1 =>
    if N.eqb c 101 || N.eqb c 69
    then match s1 with
         | sg :: s2 =>
             if N.eqb sg 43 then exponent_digits 1 s2
             else if N.eqb sg 45 then exponent_digits (-1) s2
             else exponent_digits 1 s1
         | [] => 0%Z
         end
    else 0%Z
| [] => 0%Z
end.

(** The longest prefix of [s] that is a StrUnsignedDecimalLiteral other
    than [Infinity], as a pair [(m, e)] standing for [m * 10^e]; [None]
    when no prefix is one. *)
Definition parse_unsigned (s : js_string) : option (Z * Z) :=
let (ip, r1) := span_digits s in
match r1 with
| c :: r2 =>
    if N.eqb c 46
    then let (fp, r3) := span_digits r2 in
         match ip, fp with
         | [], [] => None
         | _, _ => Some (digits_value (ip ++ fp),
                         (parse_exponent r3 - Z.of_nat (List.length fp))%Z)
         end
    else match ip with
         | [] => None
         | _ => Some (digits_value ip, parse_exponent r1)
         end
| [] =>
    match ip with
    | [] => None
    | _ => Some (digits_value ip, 0%Z)
    end
end.

Definition split_sign (s : js_string) : bool * js_string :=
match s with
| c :: r =>
    if N.eqb c 43 then (false, r)
    else if N.eqb c 45 then (true, r)
    else (false, s)
| [] => (false, [])
end.

(** [parseFloat(string)]: leading white space is dropped, the longest
    prefix that is a StrDecimalLiteral is read and what follows it is
    ignored; NaN when there is no such prefix. *)
Definition parseFloat (input : js_string) : number :=
let (neg, body) := split_sign (trim_start input) in
if starts_with (str "Infinity") body then S754_infinity neg
else match parse_unsigned body with
     | None => js_NaN
     | Some (m, e) => number_of_decimal neg m e
     end.

(** ** Number.prototype.toFixed *)

Definition digit_char (d : Z) : code_unit := Z.to_N (48 + d).

(** The decimal digits of a non-negative integer, most significant first
    (["0"] for zero).  [fuel] bounds the number of digits. *)
Fixpoint digits_fuel (fuel : nat) (n : Z) (acc : js_string) : js_string :=
match fuel with
| O => acc
| S fuel' =>
    let acc' := digit_char (n mod 10) :: acc in
    if (n <? 10)%Z then acc' else digits_fuel fuel' (n / 10) acc'
end.

Definition decimal_digits (n : Z) : js_string :=
digits_fuel (S (Z.to_nat (Z.log2 n))) n [].

(** Step 10.a of toFixed for the finite value [m * 2^e] (with [m > 0]): the
    integer [n] for which [n / 10^f] is nearest to it, the larger [n] when
    two are equally near: [floor (m * 2^e * 10^f + 1/2)]. *)
Definition nearest_scaled (f : nat) (m : positive) (e : Z) : Z :=
let a := (Zpos m * 10 ^ Z.of_nat f)%Z in
if (0 <=? e)%Z then (a * 2 ^ e)%Z
else ((2 * a + 2 ^ (- e)) / (2 * 2 ^ (- e)))%Z.

(** Steps 10.b-10.d: the digits of [n], padded with zeros to [f + 1]
    digits, with a point before the last [f] of them. *)
Definition fixed_notation (f : nat) (n : Z) : js_string :=
let m := decimal_digits n in
match f with
| O => m
| S _ =>
    let m := if (List.length m <=? f)%nat
             then repeat 48%N (f + 1 - List.length m) ++ m
             else m in
    let k := List.length m in
    firstn (k - f) m ++ 46%N :: skipn (k - f) m
end.

(** [10^21 <= m * 2^e]. *)
Definition at_least_1e21 (m : positive) (e : Z) : bool :=
if (0 <=? e)%Z then (10 ^ 21 <=? Zpos m * 2 ^ e)%Z
else (10 ^ 21 * 2 ^ (- e) <=? Zpos m)%Z.

Fixpoint drop_zeros (ds : js_string) : js_string :=
match ds with
| c :: ds' => if N.eqb c 48 then drop_zeros ds' else ds
| [] => []
end.

Definition strip_trailing_zeros (ds : js_string) : js_string :=
rev (drop_zeros (rev ds)).

(** Number::toString looks for the fewest significant digits that read back
    as the same Number.  [digits_candidate x X j] is the integer [c], if
    any, next to [X / 10^j] for which [c * 10^j] rounds to [x]; when both
    neighbours do, the one nearer to [X], the even one when equally near. *)
Definition digits_candidate (x : number) (X j : Z) : option Z :=
let lo := (X / 10 ^ j)%Z in
let hi := (lo + 1)%Z in
let reads_back c :=
  number_eqb (binary_normalize prec emax (c * 10 ^ j) 0 false) x in
match reads_back lo, reads_back hi with
| true, true =>
    let dl := (X - lo * 10 ^ j)%Z in
    let dh := (hi * 10 ^ j - X)%Z in
    Some (if (dl <? dh)%Z then lo
          else if (dh <? dl)%Z then hi
          else if Z.even lo then lo else hi)
| true, false => Some lo
| false, true => Some hi
| false, false => None
end.

(** Candidates with 1, 2, ... significant digits are tried in turn; with
    all the digits of [X] the value is [X] itself. *)
Fixpoint shortest_digits (x : number) (X : Z) (d : nat) (ks : list nat)
  : Z * Z :=
match ks with
| [] => (X, 0%Z)
| k :: ks' =>
    let j := Z.of_nat (d - k) in
    match digits_candidate x X j with
    | Some c => (c, j)
    | None => shortest_digits x X d ks'
    end
end.

(** Number::toString(x, 10) for a positive integer-valued [x = X] with
    [10^21 <= X]: the exponential notation, [d.ddde+n]. *)
Definition toString_exponential (x : number) (X : Z) : js_string :=
let d := List.length (decimal_digits X) in
let (c, j) := shortest_digits x X d (seq 1 d) in
let cd := decimal_digits c in
let n := (Z.of_nat (List.length cd) + j)%Z in
match strip_trailing_zeros cd with
| [] => []
| d1 :: [] => d1 :: str "e+" ++ decimal_digits (n - 1)
| d1 :: rest => d1 :: 46%N :: rest ++ str "e+" ++ decimal_digits (n - 1)
end.

(** [x.toFixed(f)] for [0 <= f <= 100].  A value that is not finite prints
    as its name; a magnitude of [10^21] or more prints as Number::toString
    does, without rounding to [f] places; otherwise the nearest multiple of
    [10^-f] is printed in fixed notation, half-way cases of the exact
    binary value going away from zero. *)
Definition toFixed (f : nat) (x : number) : js_string :=
match x with
| S754_nan => str "NaN"
| S754_infinity false => str "Infinity"
| S754_infinity true => str "-Infinity"
| S754_zero _ => fixed_notation f 0
| S754_finite s m e =>
    (if s then str "-" else []) ++
    (if at_least_1e21 m e
     then toString_exponential (S754_finite false m e) (Zpos m * 2 ^ e)
     else fixed_notation f (nearest_scaled f m e))
end.

(** ** Regular expressions *)

(** The patterns needed here are sequences of terms, each an assertion or a
    one-character atom, possibly under a greedy quantifier. *)
Inductive atom :=
| A_char (c : code_unit)
| A_digit.

Inductive term :=
| T_start
| T_end
| T_atom (a : atom)
| T_star (a : atom)
| T_opt (a : atom).

Definition pattern := list term.

Definition atom_matches (a : atom) (c : code_unit) : bool :=
match a with
| A_char c' => N.eqb c c'
| A_digit => is_digit c
end.

(** Matchers in the style of the language definition: a matcher gets the
    index reached, the input that is left and a continuation that decides
    whether the rest of the pattern matches from there; a quantifier first
    tries to take one more character and falls back to the continuation. *)
Definition continuation := nat -> js_string -> bool.

Fixpoint star_match (a : atom) (k : continuation) (i : nat) (s : js_string)
  : bool :=
match s with
| c :: s' => (atom_matches a c && star_match a k (S i) s') || k i s
| [] => k i s
end.

Definition term_match (t : term) (k : continuation) : continuation :=
fun i s =>
match t with
| T_start => Nat.eqb i 0 && k i s
| T_end => match s with [] => k i s | _ :: _ => false end
| T_atom a =>
    match s with
    | c :: s' => atom_matches a c && k (S i) s'
    | [] => false
    end
| T_star a => star_match a k i s
| T_opt a =>
    match s with
    | c :: s' => (atom_matches a c && k (S i) s') || k i s
    | [] => k i s
    end
end.

Fixpoint pattern_match (p : pattern) (k : continuation) : continuation :=
match p with
| [] => k
| t :: p' => term_match t (pattern_match p' k)
end.

(** A match is looked for from every index in turn. *)
Fixpoint search_from (p : pattern) (i : nat) (s : js_string) : bool :=
pattern_match p (fun _ _ => true) i s
|| match s with
   | [] => false
   | _ :: s' => search_from p (S i) s'
   end.

(** [RegExp.prototype.test] of a pattern without flags. *)
Definition regex_test (p : pattern) (s : js_string) : bool :=
search_from p 0 s.

(** ** Objects *)

(** An ordinary object holding data properties with string keys: the own
    properties, with distinct keys, in own-property order, the order in
    which [Object.keys] lists them. *)
Definition object (V : Type) := list (js_string * V).

Definition Object_keys (V : Type) (o : object V) : list js_string :=
map fst o.

Fixpoint own_property (V : Type) (o : object V) (k : js_string) : option V :=
match o with
| [] => None
| (k', v) :: o' => if js_string_eqb k' k then Some v else own_property o' k
end.

End JS.

(* ================================================================== *)
(** * The component *)
(* ================================================================== *)

Module App.
Import JS.

(** ** State *)

(** The seven [useState] cells of [App]. *)
Record state := {
  amount : js_string;
  targetCurrency : js_string;
  convertedAmount : option js_string;
  rates : object number;
  date : option js_string;
  loading : bool;
  error : option js_string
}.

(** The arguments of the [useState] calls: the state of the first render. *)
Definition initial_state : state := {|
  amount := str "1";
  targetCurrency := [];
  convertedAmount := None;
  rates := [];
  date := None;
  loading := true;
  error := None
|}.

Definition API_URL : js_string :=
str "https://cdn.jsdelivr.net/npm/@fawazahmed0/currency-api@latest/v1/currencies/usd.json".

(** What a handler does, in the order in which it does it: calls of the
    state setters, [alert] and [fetch].  A handler reads the state of the
    render that created it; the setters take effect afterwards. *)
Inductive effect :=
| SetAmount (v : js_string)
| SetTargetCurrency (v : js_string)
| SetConvertedAmount (v : option js_string)
| SetRates (v : object number)
| SetDate (v : option js_string)
| SetLoading (v : bool)
| SetError (v : option js_string)
| Alert (message : js_string)
| Fetch (url : js_string).

Definition set_state (st : state) (eff : effect) : state :=
match eff with
| SetAmount v =>
    {| amount := v; targetCurrency := targetCurrency st;
       convertedAmount := convertedAmount st; rates := rates st;
       date := date st; loading := loading st; error := error st |}
| SetTargetCurrency v =>
    {| amount := amount st; targetCurrency := v;
       convertedAmount := convertedAmount st; rates := rates st;
       date := date st; loading := loading st; error := error st |}
| SetConvertedAmount v =>
    {| amount := amount st; targetCurrency := targetCurrency st;
       convertedAmount := v; rates := rates st;
       date := date st; loading := loading st; error := error st |}
| SetRates v =>
    {| amount := amount st; targetCurrency := targetCurrency st;
       convertedAmount := convertedAmount st; rates := v;
       date := date st; loading := loading st; error := error st |}
| SetDate v =>
    {| amount := amount st; targetCurrency := targetCurrency st;
       convertedAmount := convertedAmount st; rates := rates st;
       date := v; loading := loading st; error := error st |}
| SetLoading v =>
    {| amount := amount st; targetCurrency := targetCurrency st;
       convertedAmount := convertedAmount st; rates := rates st;
       date := date st; loading := v; error := error st |}
| SetError v =>
    {| amount := amount st; targetCurrency := targetCurrency st;
       convertedAmount := convertedAmount st; rates := rates st;
       date := date st; loading := loading st; error := v |}
| Alert _ => st
| Fetch _ => st
end.

(** The state once the queued updates of a handler are applied. *)
Definition commit (effs : list effect) (st : state) : state :=
fold_left set_state effs st.

(** The notifications a handler raised, in order. *)
Fixpoint alerts_of (effs : list effect) : list js_string :=
match effs with
| [] => []
| Alert m :: effs' => m :: alerts_of effs'
| _ :: effs' => alerts_of effs'
end.

(** ** handleConvert *)

(** [!amount || isNaN(parseFloat(amount)) || parseFloat(amount) <= 0] *)
Definition amount_rejected (a : js_string) : bool :=
negb (truthy_string a)
|| isNaN (parseFloat a)
|| num_leb (parseFloat a) num_zero.

(** [rates[targetCurrency]] as an operand of [*]: the own property when
    there is one; anything found further up the prototype chain, or
    [undefined], converts to NaN. *)
Definition rate_operand (o : object number) (k : js_string) : number :=
match own_property o k with
| Some r => r
| None => js_NaN
end.

Definition handleConvert (st : state) : list effect :=
SetConvertedAmount None ::
(if amount_rejected (amount st)
 then [Alert (str "Please enter a valid positive amount.")]
 else if negb (truthy_string (targetCurrency st))
 then [Alert (str "Please select a target currency.")]
 else
   let rate := rate_operand (rates st) (targetCurrency st) in
   let result := toFixed 2 (num_mul (parseFloat (amount st)) rate) in
   [SetConvertedAmount (Some result)]).

(** ** handleAmountChange *)

(** [/^\d*\.?\d*$/] *)
Definition amount_pattern : pattern :=
[T_start; T_star A_digit; T_opt (A_char 46%N); T_star A_digit; T_end].

Definition handleAmountChange (value : js_string) (st : state) : list effect :=
if regex_test amount_pattern value then [SetAmount value] else [].

(** [onChange] of the selector. *)
Definition handleCurrencyChange (value : js_string) (st : state)
  : list effect :=
[SetTargetCurrency value].

(** ** fetchCurrencyData *)

(** What a [throw] or a rejected promise carries. *)
Inductive thrown :=
| Thrown_Error (message : js_string)
| Thrown_other.

(** The document of the endpoint, of the shape
    [{ date: string, usd: { [code]: number } }]. *)
Record api_document := {
  doc_date : js_string;
  doc_usd : object number
}.

(** A response: its status, and how the promise of [response.json()]
    settles. *)
Record response := {
  status : N;
  json : thrown + api_document
}.

(** [response.ok]: the status is in the range 200-299. *)
Definition ok (r : response) : bool :=
(200 <=? status r)%N && (status r <=? 299)%N.

(** How the promise of [fetch(API_URL)] settles. *)
Inductive fetch_result :=
| Fetch_rejected (e : thrown)
| Fetch_response (r : response).

(** The [try] block up to [await fetch]. *)
Definition fetchCurrencyData_start : list effect :=
[SetLoading true; SetError None; Fetch API_URL].

(** The rest of the [try] block: its effects, and what it throws if it
    does not run to its end. *)
Definition fetchCurrencyData_try (fr : fetch_result)
  : list effect * option thrown :=
match fr with
| Fetch_rejected e => ([], Some e)
| Fetch_response r =>
    if negb (ok r)
    then ([], Some (Thrown_Error
            (str "Network response was not ok. Please try again later.")))
    else match json r with
         | inl e => ([], Some e)
         | inr data =>
             (SetDate (Some (doc_date data)) ::
              SetRates (doc_usd data) ::
              match Object_keys (doc_usd data) with
              | k :: _ => [SetTargetCurrency k]
              | [] => []
              end, None)
         end
end.

Definition fetchCurrencyData_catch (err : thrown) : list effect :=
match err with
| Thrown_Error m => [SetError (Some m)]
| Thrown_other => [SetError (Some (str "An unknown error occurred."))]
end.

Definition fetchCurrencyData_finally : list effect :=
[SetLoading false].

(** What [fetchCurrencyData] does once the fetch has settled. *)
Definition fetchCurrencyData_resume (fr : fetch_result) : list effect :=
let (effs, exn) := fetchCurrencyData_try fr in
effs
++ match exn with
   | Some e => fetchCurrencyData_catch e
   | None => []
   end
++ fetchCurrencyData_finally.

(** ** The rendered view *)

Definition truthy_opt (v : option js_string) : bool :=
match v with
| Some s => truthy_string s
| None => false
end.

(** An [<option>]: its value and its text. *)
Record option_view := {
  option_value : js_string;
  option_label : option js_string
}.

Record view := {
  amount_field : js_string;
  selector_disabled : bool;
  selector_value : js_string;
  selector_options : list option_view;
  button_disabled : bool;
  button_label : js_string;
  error_text : option js_string;
  result_text : option (js_string * option js_string);
  footer_date : option js_string
}.

Definition render (st : state) : view := {|
  amount_field := amount st;
  selector_disabled := loading st;
  selector_value := targetCurrency st;
  selector_options :=
    if loading st
    then [ {| option_value := str "Loading currencies...";
              option_label := Some (str "Loading currencies...") |} ]
    else map (fun currency =>
                {| option_value := currency;
                   option_label := toUpperCase currency |})
             (Object_keys (rates st));
  button_disabled := loading st;
  button_label :=
    if loading st then str "Fetching Rates..." else str "Convert Amount";
  error_text := if truthy_opt (error st) then error st else None;
  result_text :=
    if truthy_opt (convertedAmount st) && negb (truthy_opt (error st))
    then match convertedAmount st with
         | Some c => Some (c, toUpperCase (targetCurrency st))
         | None => None
         end
    else None;
  footer_date :=
    if truthy_opt (date st) && negb (truthy_opt (error st))
    then date st else None
|}.

Definition option_labels (v : view) : list (option js_string) :=
map option_label (selector_options v).

(** ** The component in its environment *)

(** The mounted component: its state, whether the fetch is still in
    flight, how many requests were issued and the notifications shown. *)
Record world := {
  ui : state;
  pending : bool;
  requests : nat;
  alerts : list js_string
}.

Definition perform (w : world) (eff : effect) : world :=
match eff with
| Alert m =>
    {| ui := ui w; pending := pending w; requests := requests w;
       alerts := alerts w ++ [m] |}
| Fetch _ =>
    {| ui := ui w; pending := true; requests := S (requests w);
       alerts := alerts w |}
| _ =>
    {| ui := set_state (ui w) eff; pending := pending w;
       requests := requests w; alerts := alerts w |}
end.

Definition perform_all (effs : list effect) (w : world) : world :=
fold_left perform effs w.

(** Mounting: the first render, then the effect of [useEffect], which
    calls [fetchCurrencyData]. *)
Definition mount : world :=
perform_all fetchCurrencyData_start
  {| ui := initial_state; pending := false; requests := 0; alerts := [] |}.

Inductive event :=
| Ev_fetch_settled (fr : fetch_result)
| Ev_amount_input (value : js_string)
| Ev_select (value : js_string)
| Ev_click_convert.

(** The fetch settles only while it is pending; the selector and the
    button do nothing while they are disabled, and the selector offers only
    its options. *)
Definition enabled (w : world) (ev : event) : bool :=
match ev with
| Ev_fetch_settled _ => pending w
| Ev_amount_input _ => true
| Ev_select v =>
    negb (selector_disabled (render (ui w)))
    && existsb (fun o => js_string_eqb (option_value o) v)
         (selector_options (render (ui w)))
| Ev_click_convert => negb (button_disabled (render (ui w)))
end.

Definition reaction (st : state) (ev : event) : list effect :=
match ev with
| Ev_fetch_settled fr => fetchCurrencyData_resume fr
| Ev_amount_input v => handleAmountChange v st
| Ev_select v => handleCurrencyChange v st
| Ev_click_convert => handleConvert st
end.

Definition settle (w : world) (ev : event) : world :=
match ev with
| Ev_fetch_settled _ =>
    {| ui := ui w; pending := false; requests := requests w;
       alerts := alerts w |}
| _ => w
end.

Definition step (w : world) (ev : event) : option world :=
if enabled w ev
then Some (perform_all (reaction (ui w) ev) (settle w ev))
else None.

(** The worlds a sequence of events goes through, in the order in which
    they are reached; [None] when one of the events cannot happen where it
    stands. *)
Fixpoint run (w : world) (evs : list event) : option (list world) :=
match evs with
| [] => Some [w]
| ev :: evs' =>
    match step w ev with
    | Some w' =>
        match run w' evs' with
        | Some ws => Some (w :: ws)
        | None => None
        end
    | None => None
    end
end.

(** ** The fetch state *)

Inductive fetch_state :=
| FS_loading
| FS_success (d : option js_string) (r : object number)
| FS_failure (message : js_string).

Definition fetch_state_of (st : state) : fetch_state :=
if loading st then FS_loading
else match error st with
     | Some m => FS_failure m
     | None => FS_success (date st) (rates st)
     end.

Definition is_settled (ev : event) : bool :=
match ev with
| Ev_fetch_settled _ => true
| _ => false
end.

End App.

(* ================================================================== *)
(** * The specification's vocabulary *)
(* ================================================================== *)

Module Spec.
Import JS App.

(** An amount string parses to a positive number. *)
Definition positive_amount (a : js_string) : Prop :=
num_ltb num_zero (parseFloat a) = true.

(** The validation of the convert action fails: the amount does not parse
    to a positive number, or no target currency is selected. *)
Definition validation_fails (st : state) : Prop :=
~ positive_amount (amount st) \/ targetCurrency st = [].

(** "Zero or more digits, optionally a single decimal point, followed by
    zero or more digits". *)
Definition all_digits (s : js_string) : Prop :=
Forall (fun c => is_digit c = true) s.

Inductive amount_syntax : js_string -> Prop :=
| Amount_digits ip :
    all_digits ip -> amount_syntax ip
| Amount_point ip fp :
    all_digits ip -> all_digits fp -> amount_syntax (ip ++ 46%N :: fp).

(** [n] hundredths is the multiple of 1/100 nearest to [m * 2^e], the
    larger of two that are equally near:
    [n - 1/2 <= 100 * m * 2^e < n + 1/2], written without fractions. *)
Definition nearest_hundredths (m : positive) (e n : Z) : Prop :=
if (0 <=? e)%Z then n = (100 * (Zpos m * 2 ^ e))%Z
else ((2 * n - 1) * 2 ^ (- e) <= 200 * Zpos m < (2 * n + 1) * 2 ^ (- e))%Z.

(** Reading a string of the form [-]d...d.dd: its sign and the number of
    hundredths it stands for. *)
Definition read_hundredths (s : js_string) : option (bool * Z) :=
let (neg, body) :=
  match s with
  | c :: r => if N.eqb c 45 then (true, r) else (false, s)
  | [] => (false, [])
  end in
let (ip, rest) := span_digits body in
match ip, rest with
| _ :: _, [p; d1; d2] =>
    if N.eqb p 46 && is_digit d1 && is_digit d2
    then Some (neg, digits_value (ip ++ [d1; d2]))
    else None
| _, _ => None
end.

(** A finite number of magnitude below [10^21]. *)
Definition below_1e21 (x : number) : Prop :=
match x with
| S754_zero _ => True
| S754_finite _ m e => at_least_1e21 m e = false
| _ => False
end.

(** [s] is [x] rounded to two decimal places: it reads as the multiple of
    1/100 nearest to [x], half-way cases going away from zero, with the
    sign of [x] (no sign for a zero). *)
Definition rounded_to_two_places (x : number) (s : js_string) : Prop :=
match x with
| S754_zero _ => read_hundredths s = Some (false, 0%Z)
| S754_finite sg m e =>
    exists n, nearest_hundredths m e n /\ read_hundredths s = Some (sg, n)
| _ => False
end.

(** The state in which the last world of a run leaves the component. *)
Definition final_state (evs : list event) : option state :=
match run mount evs with
| Some ws => option_map ui (last (map Some ws) None)
| None => None
end.

(** The fetch states a run goes through. *)
Definition fetch_states (ws : list world) : list fetch_state :=
map (fun w => fetch_state_of (ui w)) ws.

(** The one-way lifecycle of a sequence of fetch states: loading at first,
    then, from the moment the fetch has completed, one and the same
    outcome, success or failure, to the end. *)
Definition one_way (fs : list fetch_state) (completed : bool) : Prop :=
exists before after outcome,
  fs = repeat FS_loading (S before) ++ repeat outcome after
  /\ outcome <> FS_loading
  /\ (0 < after <-> completed = true).

(** The worlds the mounted component can be in. *)
Inductive reachable : world -> Prop :=
| Reach_mount : reachable mount
| Reach_step w ev w' :
    reachable w -> step w ev = Some w' -> reachable w'.

(** While the fetch is in flight nothing but the amount field has moved;
    afterwards the loading flag is down for good. *)
Definition awaiting (w : world) : Prop :=
pending w = true
/\ loading (ui w) = true
/\ error (ui w) = None
/\ rates (ui w) = []
/\ date (ui w) = None
/\ targetCurrency (ui w) = []
/\ convertedAmount (ui w) = None.

Definition settled (w : world) : Prop :=
pending w = false /\ loading (ui w) = false.

Definition is_fetch (eff : effect) : bool :=
match eff with
| Fetch _ => true
| _ => false
end.

(** What the loader stored is the same in [st'] as in [st]. *)
Definition keeps_loader_state (st st' : state) : Prop :=
loading st' = loading st
/\ error st' = error st
/\ date st' = date st
/\ rates st' = rates st.

(** The selected currency is nothing or a key of the rate table. *)
Definition selection_in_table (st : state) : Prop :=
targetCurrency st = []
\/ In (targetCurrency st) (Object_keys (rates st)).

(** Nothing of a document is in the state. *)
Definition nothing_loaded (st : state) : Prop :=
rates st = [] /\ targetCurrency st = [] /\ date st = None.

(** What holds of the mounted component at every moment. *)
Definition well_formed (w : world) : Prop :=
amount_syntax (amount (ui w))
/\ selection_in_table (ui w)
/\ (pending w = true -> alerts w = [])
/\ (forall m, error (ui w) = Some m -> nothing_loaded (ui w)).

(** The amount field after a sequence of values was offered to it. *)
Definition typed (values : list js_string) (st : state) : state :=
fold_left (fun s v => commit (handleAmountChange v s) s) values st.

(** A string of zeros and points. *)
Definition zeros_and_points (s : js_string) : Prop :=
Forall (fun c => c = 48%N \/ c = 46%N) s.

(** The world in which a run from the mount ends. *)
Definition final_world (evs : list event) : option world :=
match run mount evs with
| Some ws => last (map Some ws) None
| None => None
end.

(** A Number that is NaN or not below zero. *)
Definition not_below_zero (x : number) : Prop :=
isNaN x = true \/ num_leb num_zero x = true.

(** The shape [-]d...d.dd of a result in fixed notation. *)
Definition two_decimal_shape (s : js_string) : Prop :=
exists (neg : bool) (ip : js_string) (d1 d2 : code_unit),
  s = (if neg then [45%N] else []) ++ ip ++ [46%N; d1; d2]
  /\ ip <> []
  /\ all_digits ip
  /\ is_digit d1 = true
  /\ is_digit d2 = true.

(** The fetch delivers a document: the response is ok and its body
    parses. *)
Definition delivers (fr : fetch_result) (data : api_document) : Prop :=
exists r, fr = Fetch_response r /\ ok r = true /\ json r = inr data.

End Spec.

(** ** Sample data *)

Module Sample.
Import JS App.

Definition rate (s : string) : number := parseFloat (str s).

(** [{date:"2024-01-01", usd:{"eur":0.9,"gbp":0.8}}] *)
Definition document : api_document := {|
  doc_date := str "2024-01-01";
  doc_usd := [(str "eur", rate "0.9"); (str "gbp", rate "0.8")]
|}.

Definition ok_response (d : api_document) : fetch_result :=
Fetch_response {| status := 200; json := inr d |}.

Definition http_500 : fetch_result :=
Fetch_response {| status := 500; json := inr document |}.

(** The state once [document] is loaded, and the same state with a result
    on display. *)
Definition loaded : state := {|
  amount := str "1";
  targetCurrency := str "eur";
  convertedAmount := None;
  rates := doc_usd document;
  date := Some (doc_date document);
  loading := false;
  error := None
|}.

Definition converted : state :=
set_state loaded (SetConvertedAmount (Some (str "0.90"))).

(** A table whose only key is the empty string. *)
Definition unnamed_document : api_document := {|
  doc_date := str "2024-01-01";
  doc_usd := [([], rate "2")]
|}.

(** The state after a failed fetch: no rates and no currency. *)
Definition failed : state := {|
  amount := str "1";
  targetCurrency := [];
  convertedAmount := None;
  rates := [];
  date := None;
  loading := false;
  error := Some (str "Network response was not ok. Please try again later.")
|}.

(** The same with the amount field emptied. *)
Definition blank : state := set_state failed (SetAmount []).

(** A result on display and a zero amount typed afterwards. *)
Definition stale : state := set_state converted (SetAmount (str "0")).

(** The amount is edited while the rates load; then the rates arrive, and
    the user converts, picks another currency and converts again. *)
Definition session : list event :=
[Ev_amount_input (str "2");
 Ev_fetch_settled (ok_response document);
 Ev_click_convert;
 Ev_select (str "gbp");
 Ev_click_convert].

(** The world in which a run ends (the mounted one if the run cannot
    happen). *)
Definition world_after (evs : list event) : world :=
match Spec.final_world evs with
| Some w => w
| None => mount
end.

(** Three values offered to the amount field while the rates load. *)
Definition keystrokes : list event :=
[Ev_amount_input (str "2.5");
 Ev_amount_input (str "2.5x");
 Ev_amount_input (str "-1")].

(** The rates arrived and one conversion was made. *)
Definition shown : world :=
world_after [Ev_fetch_settled (ok_response document); Ev_click_convert].

(** The fetch came back with status 500. *)
Definition failed_world : world :=
world_after [Ev_fetch_settled http_500].

(** A document without any rate. *)
Definition empty_document : api_document := {|
  doc_date := str "2024-01-01";
  doc_usd := []
|}.

(** A state whose selected currency is not in the table. *)
Definition unlisted : state :=
set_state loaded (SetTargetCurrency (str "xyz")).

(** A state with a zero amount. *)
Definition zero_amount : state :=
set_state loaded (SetAmount (str "0.00")).

End Sample.

(* ================================================================== *)
(** * Properties *)
(* ================================================================== *)

Import JS App Spec.

Unset Implicit Arguments.

(** ** Setters and queued updates *)

Lemma commit_cons (eff : effect) (effs : list effect) (st : state) :
  commit (eff :: effs) st = commit effs (set_state st eff).
Proof. reflexivity. Qed.

Lemma commit_app (e1 e2 : list effect) (st : state) :
  commit (e1 ++ e2) st = commit e2 (commit e1 st).
Proof. unfold commit. apply fold_left_app. Qed.

(** ** The validation of the amount *)

Lemma reject_number_iff (x : number) :
  isNaN x || num_leb x num_zero = negb (num_ltb num_zero x).
Proof.
  destruct x as [s|s| |s m e]; try destruct s; reflexivity.
Qed.

(** The three tests of the guard amount to one: the amount is rejected
    exactly when it does not parse to a number above zero. *)
Lemma amount_rejected_iff (a : js_string) :
  amount_rejected a = negb (num_ltb num_zero (parseFloat a)).
Proof.
  unfold amount_rejected.
  destruct a as [|c a].
  - reflexivity.
  - cbn [truthy_string negb orb]. apply reject_number_iff.
Qed.

Lemma amount_rejected_false (a : js_string) :
  positive_amount a -> amount_rejected a = false.
Proof.
  unfold positive_amount. intros H.
  rewrite amount_rejected_iff, H. reflexivity.
Qed.

Lemma amount_rejected_true (a : js_string) :
  ~ positive_amount a -> amount_rejected a = true.
Proof.
  unfold positive_amount. intros H.
  rewrite amount_rejected_iff.
  destruct (num_ltb num_zero (parseFloat a)); [now elim H|reflexivity].
Qed.

Lemma positive_amount_dec (a : js_string) :
  {positive_amount a} + {~ positive_amount a}.
Proof.
  unfold positive_amount.
  destruct (num_ltb num_zero (parseFloat a)); [left|right]; congruence.
Defined.

(** ** The three ways through handleConvert *)

Lemma handleConvert_rejected (st : state) :
  ~ positive_amount (amount st) ->
  handleConvert st =
  [SetConvertedAmount None;
   Alert (str "Please enter a valid positive amount.")].
Proof.
  intros H. unfold handleConvert.
  rewrite (amount_rejected_true _ H). reflexivity.
Qed.

Lemma handleConvert_no_currency (st : state) :
  positive_amount (amount st) ->
  targetCurrency st = [] ->
  handleConvert st =
  [SetConvertedAmount None;
   Alert (str "Please select a target currency.")].
Proof.
  intros H E. unfold handleConvert.
  rewrite (amount_rejected_false _ H), E. reflexivity.
Qed.

Lemma handleConvert_accepted (st : state) :
  positive_amount (amount st) ->
  targetCurrency st <> [] ->
  handleConvert st =
  [SetConvertedAmount None;
   SetConvertedAmount
     (Some (toFixed 2 (num_mul (parseFloat (amount st))
                               (rate_operand (rates st)
                                             (targetCurrency st)))))].
Proof.
  intros H E. unfold handleConvert.
  rewrite (amount_rejected_false _ H).
  destruct (targetCurrency st) as [|c t]; [now elim E|reflexivity].
Qed.

(** When the validation fails the handler resets the result, raises one
    notification and does nothing else. *)
Lemma handleConvert_fails (st : state) :
  validation_fails st ->
  exists message,
    handleConvert st = [SetConvertedAmount None; Alert message]
    /\ message <> [].
Proof.
  intros [H|H].
  - eexists. split; [apply (handleConvert_rejected st H)|discriminate].
  - destruct (positive_amount_dec (amount st)) as [P|P].
    + eexists. split; [apply (handleConvert_no_currency st P H)|discriminate].
    + eexists. split; [apply (handleConvert_rejected st P)|discriminate].
Qed.

(** ** Printing with two decimals *)

Section Printing.

Local Open Scope Z_scope.

Lemma digit_char_spec (d : Z) :
  0 <= d < 10 ->
  is_digit (digit_char d) = true /\ digit_value (digit_char d) = d.
Proof.
  intros H. unfold is_digit, digit_char, digit_value.
  rewrite andb_true_iff, !N.leb_le. lia.
Qed.

Lemma fold_digits_shift (ds : js_string) (acc : Z) :
  fold_left (fun a c => 10 * a + digit_value c) ds acc
  = acc * 10 ^ Z.of_nat (List.length ds)
    + fold_left (fun a c => 10 * a + digit_value c) ds 0.
Proof.
  revert acc. induction ds as [|c ds IH]; intros acc.
  - cbn. lia.
  - cbn [fold_left List.length].
    rewrite (IH (10 * acc + digit_value c)), (IH (10 * 0 + digit_value c)).
    rewrite Nat2Z.inj_succ, Z.pow_succ_r by lia. ring.
Qed.

Lemma digits_value_app (a b : js_string) :
  digits_value (a ++ b)
  = digits_value a * 10 ^ Z.of_nat (List.length b) + digits_value b.
Proof.
  unfold digits_value. rewrite fold_left_app. apply fold_digits_shift.
Qed.

Lemma digits_value_zeros (k : nat) (ds : js_string) :
  digits_value (repeat 48%N k ++ ds) = digits_value ds.
Proof.
  induction k as [|k IH]; [reflexivity|].
  cbn [repeat app]. unfold digits_value in *. cbn [fold_left].
  exact IH.
Qed.

Lemma digits_fuel_spec (fuel : nat) :
  forall (n : Z) (acc : js_string),
    0 <= n < 10 ^ Z.of_nat (S fuel) ->
    exists ds,
      digits_fuel (S fuel) n acc = ds ++ acc
      /\ ds <> []
      /\ all_digits ds
      /\ digits_value ds = n.
Proof.
  induction fuel as [|fuel IH]; intros n acc H.
  - cbn [digits_fuel].
    assert (L : (n <? 10) = true) by (apply Z.ltb_lt; cbn in H; lia).
    rewrite L. rewrite Z.mod_small by (cbn in H; lia).
    destruct (digit_char_spec n) as (D & V); [cbn in H; lia|].
    exists [digit_char n]. repeat split.
    + discriminate.
    + constructor; [exact D|constructor].
    + unfold digits_value. cbn. lia.
  - remember (S fuel) as f eqn:Ef. cbn [digits_fuel].
    assert (M : 0 <= n mod 10 < 10) by (apply Z.mod_pos_bound; lia).
    destruct (digit_char_spec (n mod 10) M) as (D & V).
    destruct (n <? 10) eqn:L.
    + apply Z.ltb_lt in L. rewrite Z.mod_small in * by lia.
      exists [digit_char n]. repeat split.
      * discriminate.
      * constructor; [exact D|constructor].
      * unfold digits_value. cbn. lia.
    + apply Z.ltb_ge in L.
      assert (Q : 0 <= n / 10 < 10 ^ Z.of_nat f).
      { rewrite Nat2Z.inj_succ, Z.pow_succ_r in H by lia.
        split; [apply Z.div_pos; lia|].
        apply Z.div_lt_upper_bound; lia. }
      subst f.
      destruct (IH (n / 10) (digit_char (n mod 10) :: acc) Q)
        as (ds & E & Hne & Hd & Hv).
      exists (ds ++ [digit_char (n mod 10)]). repeat split.
      * rewrite E, <- app_assoc. reflexivity.
      * intros C. apply app_eq_nil in C. destruct C as [_ C]. discriminate C.
      * apply Forall_app. split; [exact Hd|].
        constructor; [exact D|constructor].
      * rewrite digits_value_app, Hv. cbn [List.length].
        unfold digits_value at 1. cbn [fold_left]. rewrite V.
        pose proof (Z.div_mod n 10). lia.
Qed.

Lemma decimal_digits_spec (n : Z) :
  0 <= n ->
  decimal_digits n <> []
  /\ all_digits (decimal_digits n)
  /\ digits_value (decimal_digits n) = n.
Proof.
  intros H. unfold decimal_digits.
  assert (B : 0 <= n < 10 ^ Z.of_nat (S (Z.to_nat (Z.log2 n)))).
  { split; [exact H|].
    rewrite Nat2Z.inj_succ, Z2Nat.id by apply Z.log2_nonneg.
    destruct (Z.eq_dec n 0) as [->|N0].
    - cbn. lia.
    - apply Z.lt_le_trans with (2 ^ Z.succ (Z.log2 n)).
      + apply Z.log2_spec. lia.
      + apply Z.pow_le_mono_l. pose proof (Z.log2_nonneg n). lia. }
  destruct (digits_fuel_spec _ n [] B) as (ds & E & Hne & Hd & Hv).
  rewrite E, app_nil_r. auto.
Qed.

Lemma span_digits_app (ds rest : js_string) :
  all_digits ds ->
  match rest with
  | c :: _ => is_digit c = false
  | [] => True
  end ->
  span_digits (ds ++ rest) = (ds, rest).
Proof.
  intros Hd Hr. induction Hd as [|c ds Hc Hd IH]; cbn [app span_digits].
  - destruct rest as [|c r]; cbn [span_digits]; [reflexivity|].
    rewrite Hr. reflexivity.
  - rewrite Hc, IH. reflexivity.
Qed.

Lemma fixed_notation_two (n : Z) :
  0 <= n ->
  exists a d1 d2,
    fixed_notation 2 n = a ++ [46%N; d1; d2]
    /\ a <> []
    /\ all_digits a
    /\ is_digit d1 = true
    /\ is_digit d2 = true
    /\ digits_value (a ++ [d1; d2]) = n.
Proof.
  intros H.
  destruct (decimal_digits_spec n H) as (Hne & Hd & Hv).
  unfold fixed_notation.
  set (m := decimal_digits n) in *. clearbody m.
  unfold js_string, code_unit in *.
  assert (P : exists m',
             (if (List.length m <=? 2)%nat
              then repeat 48%N (2 + 1 - List.length m) ++ m else m) = m'
             /\ all_digits m' /\ (3 <= List.length m')%nat
             /\ digits_value m' = n).
  { destruct (List.length m <=? 2)%nat eqn:L; eexists; split;
      try reflexivity.
    - apply Nat.leb_le in L. repeat split.
      + apply Forall_app. split; [|exact Hd].
        apply Forall_forall. intros c Hc.
        apply repeat_spec in Hc. subst c. reflexivity.
      + rewrite length_app, repeat_length. lia.
      + rewrite digits_value_zeros. exact Hv.
    - apply Nat.leb_gt in L. repeat split; [exact Hd|lia|exact Hv]. }
  destruct P as (m' & -> & Pd & Pl & Pv).
  remember (List.length m') as k eqn:Ek.
  pose proof (firstn_skipn (k - 2) m') as Split.
  assert (La : List.length (firstn (k - 2) m') = (k - 2)%nat).
  { rewrite length_firstn. lia. }
  assert (Lb : List.length (skipn (k - 2) m') = 2%nat).
  { rewrite length_skipn. lia. }
  remember (firstn (k - 2) m') as a eqn:Ea.
  destruct (skipn (k - 2) m') as [|d1 [|d2 [|d3 b]]] eqn:Eb;
    try discriminate Lb.
  rewrite <- Split in Pd, Pv.
  apply Forall_app in Pd. destruct Pd as (Da & Db).
  apply Forall_cons_iff in Db. destruct Db as (D1 & Db).
  apply Forall_cons_iff in Db. destruct Db as (D2 & _).
  exists a, d1, d2. repeat split; try assumption.
  intros C. rewrite C in La. cbn in La. lia.
Qed.

Lemma nearest_scaled_spec (m : positive) (e : Z) :
  0 <= nearest_scaled 2 m e
  /\ nearest_hundredths m e (nearest_scaled 2 m e).
Proof.
  unfold nearest_scaled, nearest_hundredths.
  change (10 ^ Z.of_nat 2) with 100.
  destruct (0 <=? e) eqn:E.
  - apply Z.leb_le in E. split; [|ring].
    pose proof (Z.pow_nonneg 2 e). nia.
  - apply Z.leb_gt in E.
    assert (B : 0 < 2 ^ (- e)) by (apply Z.pow_pos_nonneg; lia).
    set (b := 2 ^ (- e)) in *.
    set (q := (2 * (Z.pos m * 100) + b) / (2 * b)).
    assert (Hq : 2 * b * q <= 2 * (Z.pos m * 100) + b < 2 * b * (q + 1)).
    { split.
      - apply Z.mul_div_le. lia.
      - replace (q + 1) with (Z.succ q) by lia.
        apply Z.mul_succ_div_gt. lia. }
    split; [apply Z.div_pos; lia|]. nia.
Qed.

Lemma toFixed_two_places (s : bool) (m : positive) (e : Z) :
  at_least_1e21 m e = false ->
  exists n,
    nearest_hundredths m e n
    /\ read_hundredths (toFixed 2 (S754_finite s m e)) = Some (s, n).
Proof.
  intros Hsmall.
  destruct (nearest_scaled_spec m e) as (Hn & Hnear).
  exists (nearest_scaled 2 m e). split; [exact Hnear|].
  cbn [toFixed]. rewrite Hsmall.
  destruct (fixed_notation_two _ Hn) as (a & d1 & d2 & -> & Ha & Da & D1 & D2 & V).
  assert (Sp : span_digits (a ++ [46%N; d1; d2]) = (a, [46%N; d1; d2])).
  { apply span_digits_app; [exact Da|reflexivity]. }
  destruct a as [|c a]; [now elim Ha|].
  unfold read_hundredths. destruct s.
  - change (str "-" ++ (c :: a) ++ [46%N; d1; d2])
      with (45%N :: (c :: a) ++ [46%N; d1; d2]).
    cbn [N.eqb Pos.eqb]. rewrite Sp, D1, D2. cbn. rewrite <- V. reflexivity.
  - cbn [app]. inversion Da as [|x l Dc _]; subst.
    assert (C : N.eqb c 45 = false).
    { apply N.eqb_neq. intros ->. discriminate Dc. }
    rewrite C. change (c :: a ++ [46%N; d1; d2]) with ((c :: a) ++ [46%N; d1; d2]).
    rewrite Sp, D1, D2. cbn. rewrite <- V. reflexivity.
Qed.

(** In the range in which [toFixed] rounds, [toFixed(2)] is rounding to two
    decimal places. *)
Lemma toFixed_rounds (x : number) :
  below_1e21 x -> rounded_to_two_places x (toFixed 2 x).
Proof.
  destruct x as [s|s| |s m e]; cbn [below_1e21 rounded_to_two_places];
    try contradiction.
  - intros _. reflexivity.
  - apply toFixed_two_places.
Qed.

(** The rounding is that of the exact binary value: 2.345 is stored as a
    little more than 2.345 and goes up, 1.005 as a little less than 1.005
    and goes down; from [10^21] on nothing is rounded. *)
Example toFixed_boundary_values :
  toFixed 2 (parseFloat (str "2.345")) = str "2.35"
  /\ toFixed 2 (parseFloat (str "1.005")) = str "1.00"
  /\ toFixed 2 (parseFloat (str "0.125")) = str "0.13"
  /\ toFixed 2 (parseFloat (str "-0.001")) = str "-0.00"
  /\ toFixed 2 (parseFloat (str "999999999999999999999")) = str "1e+21"
  /\ toFixed 2 (parseFloat (str "Infinity")) = str "Infinity".
Proof. vm_compute. repeat split. Qed.

End Printing.

(** The result a convert action leaves is the last one it set. *)
Lemma convertedAmount_after_convert (st : state) :
  convertedAmount (commit (handleConvert st) st) =
  match handleConvert st with
  | [_; SetConvertedAmount v] => v
  | _ => None
  end.
Proof.
  unfold handleConvert.
  destruct (amount_rejected (amount st)); [reflexivity|].
  destruct (negb (truthy_string (targetCurrency st))); reflexivity.
Qed.

(** ** The convert action *)

(** The empty string can be a key of the table, and is then the default
    currency; the convert action takes it for "no currency selected". *)
Lemma convert_unnamed_currency_counterexample :
  exists st r,
    final_state [Ev_fetch_settled (Sample.ok_response Sample.unnamed_document)]
    = Some st
    /\ positive_amount (amount st)
    /\ own_property (rates st) (targetCurrency st) = Some r
    /\ alerts_of (handleConvert st)
       = [str "Please select a target currency."]
    /\ convertedAmount (commit (handleConvert st) st)
       <> Some (toFixed 2 (num_mul (parseFloat (amount st)) r)).
Proof.
  eexists. exists (Sample.rate "2").
  split; [vm_compute; reflexivity|].
  repeat split; try (vm_compute; reflexivity).
  vm_compute. discriminate.
Qed.

(** C1, amended.  For every amount that parses to a positive number and
    every selected currency code other than the empty string that is a key
    of the rate table, the convert action raises no notification and stores
    [(parseFloat(amount) * rates[code]).toFixed(2)] as the conversion
    result, next to the unchanged currency code.  When the product is
    finite and below [10^21] in magnitude, what is stored is the product
    rounded to two decimal places, half-way cases away from zero. *)
Theorem convert_stores_rounded_product (st : state) (r : number) :
  positive_amount (amount st) ->
  targetCurrency st <> [] ->
  own_property (rates st) (targetCurrency st) = Some r ->
  alerts_of (handleConvert st) = []
  /\ convertedAmount (commit (handleConvert st) st)
     = Some (toFixed 2 (num_mul (parseFloat (amount st)) r))
  /\ targetCurrency (commit (handleConvert st) st) = targetCurrency st
  /\ (below_1e21 (num_mul (parseFloat (amount st)) r) ->
      rounded_to_two_places
        (num_mul (parseFloat (amount st)) r)
        (toFixed 2 (num_mul (parseFloat (amount st)) r))).
Proof.
  intros Hpos Hcur Hrate.
  rewrite convertedAmount_after_convert.
  rewrite (handleConvert_accepted st Hpos Hcur).
  unfold rate_operand. rewrite Hrate.
  repeat split. apply toFixed_rounds.
Qed.

Lemma convert_stores_rounded_product_witness :
  positive_amount (amount Sample.loaded)
  /\ targetCurrency Sample.loaded <> []
  /\ own_property (rates Sample.loaded) (targetCurrency Sample.loaded)
     = Some (Sample.rate "0.9")
  /\ alerts_of (handleConvert Sample.loaded) = []
  /\ convertedAmount (commit (handleConvert Sample.loaded) Sample.loaded)
     = Some (str "0.90")
  /\ rounded_to_two_places
       (num_mul (parseFloat (str "1")) (Sample.rate "0.9")) (str "0.90").
Proof.
  split; [reflexivity|].
  split; [discriminate|].
  split; [reflexivity|].
  destruct (convert_stores_rounded_product Sample.loaded (Sample.rate "0.9"))
    as (A & C & _ & R).
  - reflexivity.
  - discriminate.
  - reflexivity.
  - split; [exact A|]. split; [exact C|]. apply R. reflexivity.
Defined.

(** A result is on display, a zero amount is typed and the convert button
    is pressed: the notification is raised and the result is gone. *)
Lemma convert_rejected_mutates_counterexample :
  exists st,
    final_state [Ev_fetch_settled (Sample.ok_response Sample.document);
                 Ev_click_convert;
                 Ev_amount_input (str "0")] = Some st
    /\ ~ positive_amount (amount st)
    /\ alerts_of (handleConvert st)
       = [str "Please enter a valid positive amount."]
    /\ convertedAmount st = Some (str "0.90")
    /\ convertedAmount (commit (handleConvert st) st) <> convertedAmount st.
Proof.
  eexists.
  split; [vm_compute; reflexivity|].
  split; [vm_compute; discriminate|].
  split; [vm_compute; reflexivity|].
  split; [vm_compute; reflexivity|].
  vm_compute. discriminate.
Qed.

(** C2, amended.  Whenever the amount does not parse to a positive number
    (as for "0", "-5" and the empty string) or no target currency is
    selected, the convert action raises one validation notification and
    stores no result; it leaves the state as it was except for the
    conversion result, which it resets to null, so that the result is
    unchanged only when none was stored. *)
Theorem convert_rejected_resets (st : state) :
  validation_fails st ->
  (exists message,
      alerts_of (handleConvert st) = [message] /\ message <> [])
  /\ commit (handleConvert st) st = set_state st (SetConvertedAmount None)
  /\ convertedAmount (commit (handleConvert st) st) = None
  /\ (convertedAmount st = None -> commit (handleConvert st) st = st)
  /\ ~ positive_amount (str "0")
  /\ ~ positive_amount (str "-5")
  /\ ~ positive_amount [].
Proof.
  intros Hfail.
  destruct (handleConvert_fails st Hfail) as (message & E & Hne).
  rewrite E.
  split; [exists message; split; [reflexivity|exact Hne]|].
  split; [reflexivity|].
  split; [reflexivity|].
  split.
  - intros Hnone. destruct st; cbn in *. subst. reflexivity.
  - repeat split; vm_compute; discriminate.
Qed.

Lemma convert_rejected_resets_witness :
  validation_fails Sample.failed
  /\ convertedAmount
       (commit (handleConvert Sample.failed) Sample.failed) = None.
Proof.
  assert (H : validation_fails Sample.failed) by (right; reflexivity).
  split; [exact H|].
  apply (convert_rejected_resets Sample.failed H).
Defined.

(** C8.  The convert action is a function of the amount, the selected
    currency and the rate table alone: two invocations that agree on these
    three perform the same effects, notifications included, and leave the
    same conversion result, whatever the rest of the state is. *)
Theorem convert_deterministic (st1 st2 : state) :
  amount st1 = amount st2 ->
  targetCurrency st1 = targetCurrency st2 ->
  rates st1 = rates st2 ->
  handleConvert st1 = handleConvert st2
  /\ convertedAmount (commit (handleConvert st1) st1)
     = convertedAmount (commit (handleConvert st2) st2).
Proof.
  intros Ea Ec Er.
  assert (E : handleConvert st1 = handleConvert st2).
  { unfold handleConvert. rewrite Ea, Ec, Er. reflexivity. }
  split; [exact E|].
  rewrite !convertedAmount_after_convert, E. reflexivity.
Qed.

Lemma convert_deterministic_witness :
  amount Sample.loaded = amount Sample.converted
  /\ targetCurrency Sample.loaded = targetCurrency Sample.converted
  /\ rates Sample.loaded = rates Sample.converted
  /\ Sample.loaded <> Sample.converted
  /\ handleConvert Sample.loaded = handleConvert Sample.converted
  /\ convertedAmount (commit (handleConvert Sample.loaded) Sample.loaded)
     = convertedAmount
         (commit (handleConvert Sample.converted) Sample.converted).
Proof.
  split; [reflexivity|].
  split; [reflexivity|].
  split; [reflexivity|].
  split; [discriminate|].
  apply (convert_deterministic Sample.loaded Sample.converted);
    reflexivity.
Defined.

(** C9.  Every convert action starts by resetting the conversion result to
    null, before the amount or the currency is looked at; so after an
    invocation whose validation fails the result is null, whatever was
    stored before. *)
Theorem convert_resets_before_validation (st : state) :
  hd_error (handleConvert st) = Some (SetConvertedAmount None)
  /\ (validation_fails st ->
      convertedAmount (commit (handleConvert st) st) = None).
Proof.
  split; [reflexivity|].
  intros Hfail.
  destruct (handleConvert_fails st Hfail) as (message & E & _).
  rewrite E. reflexivity.
Qed.

Lemma convert_resets_before_validation_witness :
  convertedAmount Sample.stale = Some (str "0.90")
  /\ validation_fails Sample.stale
  /\ convertedAmount (commit (handleConvert Sample.stale) Sample.stale)
     = None.
Proof.
  assert (H : validation_fails Sample.stale).
  { left. vm_compute. discriminate. }
  split; [reflexivity|].
  split; [exact H|].
  apply (proj2 (convert_resets_before_validation Sample.stale) H).
Defined.

(** C10.  The amount is checked before the target currency: when the amount
    fails validation and no target currency is selected, the only
    notification raised is the one about the amount; the one about the
    currency is not among the effects. *)
Theorem amount_checked_before_currency (st : state) :
  ~ positive_amount (amount st) ->
  targetCurrency st = [] ->
  alerts_of (handleConvert st)
  = [str "Please enter a valid positive amount."]
  /\ ~ In (Alert (str "Please select a target currency."))
          (handleConvert st).
Proof.
  intros Hneg _.
  rewrite (handleConvert_rejected st Hneg).
  split; [reflexivity|].
  intros [H|[H|[]]]; discriminate H.
Qed.

Lemma amount_checked_before_currency_witness :
  ~ positive_amount (amount Sample.blank)
  /\ targetCurrency Sample.blank = []
  /\ alerts_of (handleConvert Sample.blank)
     = [str "Please enter a valid positive amount."]
  /\ ~ In (Alert (str "Please select a target currency."))
          (handleConvert Sample.blank).
Proof.
  assert (H : ~ positive_amount (amount Sample.blank)).
  { vm_compute. discriminate. }
  split; [exact H|].
  split; [reflexivity|].
  apply (amount_checked_before_currency Sample.blank H).
  reflexivity.
Defined.

(** ** The input filter *)

Section Matcher.

Variable a : atom.
Variable k : continuation.

(** A greedy star succeeds exactly when the input splits into a run of
    characters of the atom and a rest on which the continuation succeeds,
    at the index reached. *)
Lemma star_match_iff (s : js_string) (i : nat) :
  star_match a k i s = true <->
  exists pre post,
    s = pre ++ post
    /\ Forall (fun c => atom_matches a c = true) pre
    /\ k (i + List.length pre) post = true.
Proof.
  revert i. induction s as [|c s IH]; intros i; cbn [star_match].
  - split.
    + intros H. exists [], []. cbn. rewrite Nat.add_0_r. auto.
    + intros (pre & post & E & _ & H).
      symmetry in E. apply app_eq_nil in E. destruct E; subst.
      cbn in H. rewrite Nat.add_0_r in H. exact H.
  - rewrite orb_true_iff, andb_true_iff, IH. split.
    + intros [(Hc & pre & post & E & Hpre & H)|H].
      * exists (c :: pre), post. subst s. cbn [List.length app].
        rewrite Nat.add_succ_r. auto.
      * exists [], (c :: s). cbn. rewrite Nat.add_0_r. auto.
    + intros (pre & post & E & Hpre & H).
      destruct pre as [|c' pre].
      * right. cbn in E, H. rewrite Nat.add_0_r in H. subst post. exact H.
      * left. cbn in E. injection E as -> ->.
        inversion Hpre; subst. split; [assumption|].
        exists pre, post. cbn [List.length] in H.
        rewrite Nat.add_succ_r in H. auto.
Qed.

End Matcher.

Lemma end_match_iff (k : continuation) (i : nat) (s : js_string) :
  term_match T_end k i s = true <-> s = [] /\ k i [] = true.
Proof.
  destruct s as [|c s]; cbn [term_match].
  - tauto.
  - split; [discriminate|]. intros [H _]. discriminate H.
Qed.

(** The tail of the pattern, [\d*$]: the rest of the input is digits. *)
Lemma digits_to_end_iff (i : nat) (s : js_string) :
  star_match A_digit (term_match T_end (fun _ _ => true)) i s = true
  <-> all_digits s.
Proof.
  rewrite star_match_iff. split.
  - intros (pre & post & E & Hpre & H).
    apply end_match_iff in H. destruct H as [-> _].
    rewrite app_nil_r in E. subst. exact Hpre.
  - intros H. exists s, []. rewrite app_nil_r.
    split; [reflexivity|]. split; [exact H|reflexivity].
Qed.

Lemma amount_pattern_unfold (k : continuation) (i : nat) (s : js_string) :
  pattern_match amount_pattern k i s =
  Nat.eqb i 0
  && star_match A_digit
       (term_match (T_opt (A_char 46%N))
          (star_match A_digit (term_match T_end k))) i s.
Proof. reflexivity. Qed.

(** [\.?\d*$] *)
Lemma point_digits_to_end_iff (i : nat) (s : js_string) :
  term_match (T_opt (A_char 46%N))
    (star_match A_digit (term_match T_end (fun _ _ => true))) i s = true
  <-> all_digits s \/ exists fp, s = 46%N :: fp /\ all_digits fp.
Proof.
  destruct s as [|c s]; cbn [term_match].
  - rewrite digits_to_end_iff. split; [auto|].
    intros [H|(fp & E & _)]; [exact H|discriminate E].
  - rewrite orb_true_iff, andb_true_iff, !digits_to_end_iff.
    cbn [atom_matches]. rewrite N.eqb_eq. split.
    + intros [[-> H]|H]; [right; eauto|left; exact H].
    + intros [H|(fp & E & H)]; [right; exact H|].
      injection E as -> ->. left. auto.
Qed.

(** Anchored at the start of the input, the pattern matches exactly the
    strings of the amount syntax. *)
Lemma amount_pattern_at_start (s : js_string) :
  pattern_match amount_pattern (fun _ _ => true) 0 s = true
  <-> amount_syntax s.
Proof.
  rewrite amount_pattern_unfold. cbn [Nat.eqb andb].
  rewrite star_match_iff. split.
  - intros (pre & post & E & Hpre & H).
    apply point_digits_to_end_iff in H. subst s.
    destruct H as [H|(fp & -> & H)].
    + apply Amount_digits. apply Forall_app. auto.
    + apply Amount_point; assumption.
  - intros H. destruct H as [ip Hip|ip fp Hip Hfp].
    + exists ip, []. rewrite app_nil_r.
      split; [reflexivity|]. split; [exact Hip|].
      apply point_digits_to_end_iff. left. constructor.
    + exists ip, (46%N :: fp).
      split; [reflexivity|]. split; [exact Hip|].
      apply point_digits_to_end_iff. right. eauto.
Qed.

(** Because of [^], no match starts after the first index. *)
Lemma amount_pattern_later (s : js_string) (i : nat) :
  search_from amount_pattern (S i) s = false.
Proof.
  revert i. induction s as [|c s IH]; intros i; cbn [search_from];
    rewrite amount_pattern_unfold; cbn [Nat.eqb andb orb];
    [reflexivity|apply IH].
Qed.

Lemma amount_pattern_test_iff (s : js_string) :
  regex_test amount_pattern s = true <-> amount_syntax s.
Proof.
  rewrite <- amount_pattern_at_start.
  unfold regex_test. destruct s as [|c s]; cbn [search_from].
  - rewrite orb_false_r. reflexivity.
  - rewrite amount_pattern_later, orb_false_r. reflexivity.
Qed.

(** C3.  The input filter accepts a proposed value, that is, sets the
    amount field to it, if and only if the value matches
    [^\d*\.?\d*$]: digits, then at most one point, then digits.  For a
    value that is rejected no setter is called and the state stays as it
    is.  The empty string and a lone point are accepted. *)
Theorem amount_filter_accepts_iff (S : js_string) (st : state) :
  (regex_test amount_pattern S = true <-> amount_syntax S)
  /\ (amount_syntax S <-> handleAmountChange S st = [SetAmount S])
  /\ (amount_syntax S ->
      amount (commit (handleAmountChange S st) st) = S)
  /\ (~ amount_syntax S <-> handleAmountChange S st = [])
  /\ (~ amount_syntax S -> commit (handleAmountChange S st) st = st)
  /\ handleAmountChange [] st = [SetAmount []]
  /\ handleAmountChange (str ".") st = [SetAmount (str ".")].
Proof.
  pose proof (amount_pattern_test_iff S) as T.
  unfold handleAmountChange.
  destruct (regex_test amount_pattern S) eqn:E.
  - assert (H : amount_syntax S) by (apply T; reflexivity).
    repeat split; auto; try (intros; tauto); try discriminate.
  - assert (H : ~ amount_syntax S).
    { intros H. apply T in H. discriminate H. }
    repeat split; auto; try (intros; tauto); try discriminate.
Qed.

Lemma amount_filter_accepts_iff_witness :
  amount_syntax (str "12.5")
  /\ amount (commit (handleAmountChange (str "12.5") Sample.loaded)
               Sample.loaded) = str "12.5"
  /\ ~ amount_syntax (str "1.2.3")
  /\ commit (handleAmountChange (str "1.2.3") Sample.loaded) Sample.loaded
     = Sample.loaded.
Proof.
  pose proof (amount_filter_accepts_iff (str "12.5") Sample.loaded) as A.
  pose proof (amount_filter_accepts_iff (str "1.2.3") Sample.loaded) as R.
  assert (Y : amount_syntax (str "12.5")).
  { apply (proj1 A). reflexivity. }
  assert (N : ~ amount_syntax (str "1.2.3")).
  { apply (proj1 (proj2 (proj2 (proj2 R)))). reflexivity. }
  split; [exact Y|].
  split; [apply (proj1 (proj2 (proj2 A)) Y)|].
  split; [exact N|].
  apply (proj1 (proj2 (proj2 (proj2 (proj2 R)))) N).
Defined.

(** ** Effects in the environment *)

Lemma ui_perform_all (effs : list effect) (w : world) :
  ui (perform_all effs w) = commit effs (ui w).
Proof.
  revert w. induction effs as [|eff effs IH]; intros w; [reflexivity|].
  unfold perform_all, commit in *. cbn [fold_left].
  rewrite IH. destruct eff; reflexivity.
Qed.

(** Effects other than [fetch] issue no request. *)
Lemma perform_all_no_fetch (effs : list effect) (w : world) :
  forallb (fun eff => negb (is_fetch eff)) effs = true ->
  pending (perform_all effs w) = pending w
  /\ requests (perform_all effs w) = requests w.
Proof.
  revert w. induction effs as [|eff effs IH]; intros w H; [auto|].
  cbn [forallb] in H. apply andb_true_iff in H. destruct H as [H1 H2].
  unfold perform_all in *. cbn [fold_left].
  destruct (IH (perform w eff) H2) as [P R]. rewrite P, R.
  destruct eff; try discriminate H1; auto.
Qed.

Lemma handleConvert_shape (st : state) :
  exists eff,
    handleConvert st = [SetConvertedAmount None; eff]
    /\ ((exists m, eff = Alert m) \/ exists v, eff = SetConvertedAmount v).
Proof.
  unfold handleConvert.
  destruct (amount_rejected (amount st)); [eauto|].
  destruct (negb (truthy_string (targetCurrency st))); eauto.
Qed.

(** No handler but the mount effect calls [fetch]. *)
Lemma reaction_no_fetch (st : state) (ev : event) :
  forallb (fun eff => negb (is_fetch eff)) (reaction st ev) = true.
Proof.
  destruct ev as [fr|v|v|]; cbn [reaction].
  - unfold fetchCurrencyData_resume, fetchCurrencyData_try.
    destruct fr as [e|r]; [destruct e; reflexivity|].
    destruct (negb (ok r)); [reflexivity|].
    destruct (json r) as [e|data]; [destruct e; reflexivity|].
    destruct (Object_keys (doc_usd data)); reflexivity.
  - unfold handleAmountChange.
    destruct (regex_test amount_pattern v); reflexivity.
  - reflexivity.
  - destruct (handleConvert_shape st) as (eff & -> & [[m ->]|[v ->]]);
      reflexivity.
Qed.

Lemma user_reaction_keeps (st : state) (ev : event) :
  is_settled ev = false ->
  keeps_loader_state st (commit (reaction st ev) st).
Proof.
  unfold keeps_loader_state.
  destruct ev as [fr|v|v|]; cbn [reaction is_settled]; intros H.
  - discriminate H.
  - unfold handleAmountChange.
    destruct (regex_test amount_pattern v); cbn; auto.
  - cbn. auto.
  - destruct (handleConvert_shape st) as (eff & -> & [[m ->]|[v ->]]);
      cbn; auto.
Qed.

Lemma keeps_fetch_state (st st' : state) :
  keeps_loader_state st st' -> fetch_state_of st' = fetch_state_of st.
Proof.
  intros (L & E & D & R). unfold fetch_state_of.
  rewrite L, E, D, R. reflexivity.
Qed.

(** ** The loader once the fetch has settled *)

(** The two ways [fetchCurrencyData] ends: the [catch] block stores a
    message, or the [try] block stores the document; [finally] lowers the
    loading flag in both. *)
Lemma resume_cases (fr : fetch_result) :
  (exists m, fetchCurrencyData_resume fr
             = [SetError (Some m); SetLoading false])
  \/ (exists r data,
        fr = Fetch_response r /\ ok r = true /\ json r = inr data
        /\ fetchCurrencyData_resume fr
           = SetDate (Some (doc_date data)) :: SetRates (doc_usd data)
             :: match Object_keys (doc_usd data) with
                | k :: _ => [SetTargetCurrency k]
                | [] => []
                end ++ [SetLoading false]).
Proof.
  unfold fetchCurrencyData_resume, fetchCurrencyData_try.
  destruct fr as [e|r].
  - left. destruct e; eexists; reflexivity.
  - destruct (ok r) eqn:Hok; cbn [negb].
    + destruct (json r) as [e|data] eqn:Hjson.
      * left. destruct e; eexists; reflexivity.
      * right. exists r, data. repeat split; assumption.
    + left. eexists. reflexivity.
Qed.

Lemma resume_not_ok (r : response) :
  ok r = false ->
  fetchCurrencyData_resume (Fetch_response r)
  = [SetError
       (Some (str "Network response was not ok. Please try again later."));
     SetLoading false].
Proof.
  intros H. unfold fetchCurrencyData_resume, fetchCurrencyData_try.
  rewrite H. reflexivity.
Qed.

Lemma resume_document (r : response) (data : api_document) :
  ok r = true ->
  json r = inr data ->
  fetchCurrencyData_resume (Fetch_response r)
  = SetDate (Some (doc_date data)) :: SetRates (doc_usd data)
    :: match Object_keys (doc_usd data) with
       | k :: _ => [SetTargetCurrency k]
       | [] => []
       end ++ [SetLoading false].
Proof.
  intros H J. unfold fetchCurrencyData_resume, fetchCurrencyData_try.
  rewrite H, J. reflexivity.
Qed.

Lemma loading_after_resume (fr : fetch_result) (st : state) :
  loading (commit (fetchCurrencyData_resume fr) st) = false.
Proof.
  destruct (resume_cases fr) as [(m & ->)|(r & data & _ & _ & _ & ->)].
  - reflexivity.
  - rewrite !commit_cons, commit_app. reflexivity.
Qed.

(** ** One step of the component *)

Lemma mount_awaiting : awaiting mount /\ requests mount = 1.
Proof. unfold awaiting. repeat split. Qed.

Lemma step_inv (w w' : world) (ev : event) :
  step w ev = Some w' ->
  enabled w ev = true
  /\ ui w' = commit (reaction (ui w) ev) (ui w)
  /\ requests w' = requests w
  /\ pending w' = if is_settled ev then false else pending w.
Proof.
  unfold step. destruct (enabled w ev); [|discriminate].
  intros E. injection E as <-.
  destruct (perform_all_no_fetch (reaction (ui w) ev) (settle w ev)
              (reaction_no_fetch (ui w) ev)) as [P R].
  rewrite ui_perform_all, P, R. destruct ev; auto.
Qed.

(** While the fetch is in flight only two things can happen: the amount
    field is edited, or the fetch settles. *)
Lemma step_awaiting (w w' : world) (ev : event) :
  awaiting w ->
  step w ev = Some w' ->
  requests w' = requests w
  /\ ((is_settled ev = false /\ awaiting w')
      \/ (is_settled ev = true /\ settled w'
          /\ fetch_state_of (ui w') <> FS_loading)).
Proof.
  intros (P & L & E & R & D & T & C) Hstep.
  destruct (step_inv w w' ev Hstep) as (En & U & Rq & Pd).
  split; [exact Rq|].
  destruct ev as [fr|v|v|]; cbn [is_settled] in *.
  - right. split; [reflexivity|].
    assert (Ld : loading (ui w') = false).
    { rewrite U. apply loading_after_resume. }
    split; [split; assumption|].
    unfold fetch_state_of. rewrite Ld. destruct (error (ui w')); discriminate.
  - left. split; [reflexivity|].
    unfold awaiting. rewrite Pd, U. cbn [reaction].
    unfold handleAmountChange.
    destruct (regex_test amount_pattern v); cbn; auto 10.
  - cbn [enabled render selector_disabled] in En.
    rewrite L in En. discriminate En.
  - cbn [enabled render button_disabled] in En.
    rewrite L in En. discriminate En.
Qed.

(** Once the fetch has settled it cannot settle again, and no action of
    the user touches what the loader stored. *)
Lemma step_settled (w w' : world) (ev : event) :
  settled w ->
  step w ev = Some w' ->
  is_settled ev = false
  /\ settled w'
  /\ requests w' = requests w
  /\ fetch_state_of (ui w') = fetch_state_of (ui w).
Proof.
  intros (P & L) Hstep.
  destruct (step_inv w w' ev Hstep) as (En & U & Rq & Pd).
  assert (S : is_settled ev = false).
  { destruct ev; try reflexivity. cbn [enabled] in En. congruence. }
  rewrite S in Pd.
  pose proof (user_reaction_keeps (ui w) ev S) as K.
  rewrite <- U in K.
  split; [exact S|].
  split; [split; [congruence|]|].
  - destruct K as (K & _). congruence.
  - split; [exact Rq|]. apply keeps_fetch_state, K.
Qed.

Lemma reachable_inv (w : world) :
  reachable w -> requests w = 1 /\ (awaiting w \/ settled w).
Proof.
  induction 1 as [|w ev w' Hr [Rq [A|S]] Hstep].
  - destruct mount_awaiting. auto.
  - destruct (step_awaiting w w' ev A Hstep) as (R & [[_ A']|(_ & S' & _)]);
      split; auto; congruence.
  - destruct (step_settled w w' ev S Hstep) as (_ & S' & R & _).
    split; auto; congruence.
Qed.

Lemma reachable_pending (w : world) :
  reachable w -> pending w = true -> awaiting w.
Proof.
  intros Hr P. destruct (reachable_inv w Hr) as (_ & [A|[S _]]);
    [exact A|congruence].
Qed.

Lemma settle_step (w : world) (fr : fetch_result) :
  pending w = true ->
  exists w',
    step w (Ev_fetch_settled fr) = Some w'
    /\ ui w' = commit (fetchCurrencyData_resume fr) (ui w).
Proof.
  intros P. eexists. split.
  - unfold step. cbn [enabled]. rewrite P. reflexivity.
  - rewrite ui_perform_all. reflexivity.
Qed.

(** ** The rate loader *)

(** After a response with status 500 the selector is not disabled. *)
Lemma failed_fetch_selector_counterexample :
  exists st message,
    final_state [Ev_fetch_settled Sample.http_500] = Some st
    /\ fetch_state_of st = FS_failure message
    /\ selector_disabled (render st) <> true.
Proof.
  do 2 eexists.
  split; [vm_compute; reflexivity|].
  split; [vm_compute; reflexivity|].
  vm_compute. discriminate.
Qed.

(** C4, amended.  When the fetch returns a status outside 200-299 the
    loader ends in the failure state with the non-empty message "Network
    response was not ok. Please try again later.", which is displayed.
    The selector and the button are disabled only while loading: once the
    fetch has completed they are enabled again, and the selector has no
    option to offer. *)
Theorem failed_fetch_leaves_empty_selector (w : world) (r : response) :
  reachable w ->
  pending w = true ->
  ok r = false ->
  exists w' message,
    step w (Ev_fetch_settled (Fetch_response r)) = Some w'
    /\ fetch_state_of (ui w') = FS_failure message
    /\ message
       = str "Network response was not ok. Please try again later."
    /\ message <> []
    /\ error_text (render (ui w')) = Some message
    /\ selector_disabled (render (ui w')) = false
    /\ selector_options (render (ui w')) = []
    /\ button_disabled (render (ui w')) = false.
Proof.
  intros Hr P Hok.
  destruct (reachable_pending w Hr P) as (_ & L & E & R & D & T & C).
  destruct (settle_step w (Fetch_response r) P) as (w' & Hstep & U).
  exists w'. eexists. split; [exact Hstep|].
  rewrite U, (resume_not_ok r Hok).
  destruct (ui w) as [a t c rt d l e]. cbn in R. subst rt.
  repeat split. discriminate.
Qed.

Lemma failed_fetch_leaves_empty_selector_witness :
  reachable mount
  /\ pending mount = true
  /\ exists w' message,
       step mount (Ev_fetch_settled Sample.http_500) = Some w'
       /\ fetch_state_of (ui w') = FS_failure message
       /\ message
          = str "Network response was not ok. Please try again later."
       /\ message <> []
       /\ error_text (render (ui w')) = Some message
       /\ selector_disabled (render (ui w')) = false
       /\ selector_options (render (ui w')) = []
       /\ button_disabled (render (ui w')) = false.
Proof.
  split; [apply Reach_mount|].
  split; [reflexivity|].
  apply (failed_fetch_leaves_empty_selector mount
           {| status := 500; json := inr Sample.document |}).
  - apply Reach_mount.
  - reflexivity.
  - reflexivity.
Defined.

(** The second label is "GBP". *)
Lemma selector_labels_counterexample :
  exists st,
    final_state [Ev_fetch_settled (Sample.ok_response Sample.document)]
    = Some st
    /\ option_labels (render st)
       <> [Some (str "EUR"); Some (str "GBR")].
Proof.
  eexists. split; [vm_compute; reflexivity|].
  vm_compute. discriminate.
Qed.

(** C5, amended.  On a successful fetch of
    [{date:"2024-01-01", usd:{"eur":0.9,"gbp":0.8}}] the selector is
    enabled and lists exactly the options "EUR" and "GBP", the keys of the
    mapping uppercased and in the order in which [Object.keys] lists them;
    the selected value is "eur" and the footer shows "2024-01-01". *)
Theorem loaded_document_view (w : world) (code : N) :
  reachable w ->
  pending w = true ->
  (200 <= code <= 299)%N ->
  exists w',
    step w (Ev_fetch_settled
              (Fetch_response
                 {| status := code; json := inr Sample.document |}))
    = Some w'
    /\ selector_disabled (render (ui w')) = false
    /\ map option_value (selector_options (render (ui w')))
       = [str "eur"; str "gbp"]
    /\ option_labels (render (ui w'))
       = [Some (str "EUR"); Some (str "GBP")]
    /\ selector_value (render (ui w')) = str "eur"
    /\ footer_date (render (ui w')) = Some (str "2024-01-01").
Proof.
  intros Hr P [Hlo Hhi].
  destruct (reachable_pending w Hr P) as (_ & L & E & R & D & T & C).
  set (r := {| status := code; json := inr Sample.document |}).
  assert (Hok : ok r = true).
  { unfold ok, r. cbn [status].
    apply andb_true_iff. split; apply N.leb_le; assumption. }
  destruct (settle_step w (Fetch_response r) P) as (w' & Hstep & U).
  exists w'. split; [exact Hstep|].
  rewrite U, (resume_document r Sample.document Hok eq_refl).
  destruct (ui w) as [a t c rt d l e]. cbn in E. subst e.
  repeat split.
Qed.

Lemma loaded_document_view_witness :
  reachable mount
  /\ pending mount = true
  /\ (200 <= 200 <= 299)%N
  /\ exists w',
       step mount (Ev_fetch_settled (Sample.ok_response Sample.document))
       = Some w'
       /\ selector_disabled (render (ui w')) = false
       /\ map option_value (selector_options (render (ui w')))
          = [str "eur"; str "gbp"]
       /\ option_labels (render (ui w'))
          = [Some (str "EUR"); Some (str "GBP")]
       /\ selector_value (render (ui w')) = str "eur"
       /\ footer_date (render (ui w')) = Some (str "2024-01-01").
Proof.
  split; [apply Reach_mount|].
  split; [reflexivity|].
  split; [lia|].
  apply (loaded_document_view mount 200).
  - apply Reach_mount.
  - reflexivity.
  - lia.
Defined.



(** ** The lifecycle of the fetch *)

Lemma run_nonempty (evs : list event) (w : world) (ws : list world) :
  run w evs = Some ws -> exists ws', ws = w :: ws'.
Proof.
  destruct evs as [|ev evs]; cbn [run].
  - intros E. injection E as <-. eauto.
  - destruct (step w ev) as [w'|]; [|discriminate].
    destruct (run w' evs) as [ws'|]; [|discriminate].
    intros E. injection E as <-. eauto.
Qed.

Lemma filter_none (A : Type) (f : A -> bool) (l : list A) :
  existsb f l = false -> filter f l = [].
Proof.
  induction l as [|x l IH]; [reflexivity|].
  cbn [existsb filter]. intros H. apply orb_false_iff in H.
  destruct H as [-> H]. auto.
Qed.

(** After the fetch has settled every world of a run shows the same fetch
    state, and the fetch does not settle again. *)
Lemma run_settled (evs : list event) :
  forall (w : world) (ws : list world),
    settled w ->
    run w evs = Some ws ->
    existsb is_settled evs = false
    /\ Forall (fun w' => requests w' = requests w) ws
    /\ fetch_states ws = repeat (fetch_state_of (ui w)) (List.length ws).
Proof.
  induction evs as [|ev evs IH]; intros w ws S H; cbn [run] in H.
  - injection H as <-. repeat split. constructor; [reflexivity|constructor].
  - destruct (step w ev) as [w'|] eqn:Hstep; [|discriminate].
    destruct (run w' evs) as [ws'|] eqn:Hrun; [|discriminate].
    injection H as <-.
    destruct (step_settled w w' ev S Hstep) as (S1 & S' & Rq & F).
    destruct (IH w' ws' S' Hrun) as (X & Y & Z).
    cbn [existsb]. rewrite S1, X.
    split; [reflexivity|]. split.
    + constructor; [reflexivity|].
      eapply Forall_impl; [|exact Y]. cbn. intros; congruence.
    + change (fetch_states (w :: ws'))
        with (fetch_state_of (ui w) :: fetch_states ws').
      rewrite Z, F. reflexivity.
Qed.

(** From a world in which the fetch is in flight, a run keeps showing the
    loading state until the fetch settles, and one outcome from then on. *)
Lemma run_awaiting (evs : list event) :
  forall (w : world) (ws : list world),
    awaiting w ->
    run w evs = Some ws ->
    Forall (fun w' => requests w' = requests w) ws
    /\ one_way (fetch_states ws) (existsb is_settled evs)
    /\ List.length (filter is_settled evs) <= 1.
Proof.
  induction evs as [|ev evs IH]; intros w ws A H; cbn [run] in H.
  - injection H as <-.
    split; [constructor; [reflexivity|constructor]|].
    split; [|cbn; lia].
    exists 0, 0, (FS_failure []).
    destruct A as (_ & L & _).
    unfold fetch_states, fetch_state_of. cbn. rewrite L.
    split; [reflexivity|]. split; [discriminate|].
    split; [lia|discriminate].
  - destruct (step w ev) as [w'|] eqn:Hstep; [|discriminate].
    destruct (run w' evs) as [ws'|] eqn:Hrun; [|discriminate].
    injection H as <-.
    assert (Fw : fetch_state_of (ui w) = FS_loading).
    { destruct A as (_ & L & _). unfold fetch_state_of. rewrite L.
      reflexivity. }
    destruct (step_awaiting w w' ev A Hstep)
      as (Rq & [(S & A')|(S & S' & Out)]).
    + destruct (IH w' ws' A' Hrun)
        as (Y & (before & after & outcome & E & Ho & Hc) & Z).
      cbn [existsb filter]. rewrite S. cbn [orb].
      split; [|split; [|exact Z]].
      * constructor; [reflexivity|].
        eapply Forall_impl; [|exact Y]. cbn. intros; congruence.
      * exists (Datatypes.S before), after, outcome.
        change (fetch_states (w :: ws'))
          with (fetch_state_of (ui w) :: fetch_states ws').
        rewrite Fw, E.
        split; [reflexivity|]. split; assumption.
    + destruct (run_settled evs w' ws' S' Hrun) as (X & Y & Z).
      destruct (run_nonempty evs w' ws' Hrun) as (tl & Etl).
      cbn [existsb filter]. rewrite S, (filter_none _ _ _ X). cbn [orb].
      split; [|split; [|cbn; lia]].
      * constructor; [reflexivity|].
        eapply Forall_impl; [|exact Y]. cbn. intros; congruence.
      * exists 0, (List.length ws'), (fetch_state_of (ui w')).
        change (fetch_states (w :: ws'))
          with (fetch_state_of (ui w) :: fetch_states ws').
        rewrite Fw, Z.
        split; [reflexivity|]. split; [exact Out|].
        subst ws'. cbn [List.length]. split; [reflexivity|lia].
Qed.

(** While no event of a run was the settling of the fetch, the fetch can
    still settle, in any way. *)
Lemma run_can_settle (evs : list event) :
  forall (w : world) (ws : list world) (fr : fetch_result),
    awaiting w ->
    run w evs = Some ws ->
    existsb is_settled evs = false ->
    exists ws', run w (evs ++ [Ev_fetch_settled fr]) = Some ws'.
Proof.
  induction evs as [|ev evs IH]; intros w ws fr A H N; cbn [run app] in *.
  - destruct A as (P & _).
    destruct (settle_step w fr P) as (w' & -> & _). eauto.
  - destruct (step w ev) as [w'|] eqn:Hstep; [|discriminate].
    destruct (run w' evs) as [ws'|] eqn:Hrun; [|discriminate].
    cbn [existsb] in N. apply orb_false_iff in N. destruct N as [N1 N2].
    destruct (step_awaiting w w' ev A Hstep)
      as (_ & [(_ & A')|(S & _)]); [|congruence].
    destruct (IH w' ws' fr A' Hrun N2) as (ws'' & ->). eauto.
Qed.

(** C7.  In every run of the mounted component exactly one request has
    been issued, at every moment, whatever the user does; the fetch can
    settle once at most; the fetch state is loading at first and, from the
    moment the fetch settles, one and the same outcome, success or failure,
    to the end of the run; and as long as the fetch has not settled it
    still can. *)
Theorem fetch_lifecycle (evs : list event) (ws : list world) :
  run mount evs = Some ws ->
  Forall (fun w => requests w = 1) ws
  /\ List.length (filter is_settled evs) <= 1
  /\ one_way (fetch_states ws) (existsb is_settled evs)
  /\ (existsb is_settled evs = false ->
      forall fr, exists ws',
        run mount (evs ++ [Ev_fetch_settled fr]) = Some ws').
Proof.
  intros H.
  destruct mount_awaiting as (A & Rq).
  destruct (run_awaiting evs mount ws A H) as (Y & O & Z).
  rewrite Rq in Y.
  repeat split; try assumption.
  intros N fr. exact (run_can_settle evs mount ws fr A H N).
Qed.

Lemma fetch_lifecycle_witness :
  exists ws,
    run mount Sample.session = Some ws
    /\ Forall (fun w => requests w = 1) ws
    /\ List.length (filter is_settled Sample.session) <= 1
    /\ one_way (fetch_states ws) (existsb is_settled Sample.session).
Proof.
  eexists. split; [vm_compute; reflexivity|].
  match goal with
  | |- Forall _ ?ws /\ _ =>
      destruct (fetch_lifecycle Sample.session ws) as (R & S & O & _);
        [vm_compute; reflexivity|auto]
  end.
Defined.

(* ================================================================== *)
(** * More about the component *)
(* ================================================================== *)

(** ** What every reachable world satisfies *)

Lemma js_string_eqb_eq (a b : js_string) :
  js_string_eqb a b = true <-> a = b.
Proof.
  revert b. induction a as [|x a IH]; intros [|y b]; cbn [js_string_eqb];
    try (split; [discriminate|discriminate]); [tauto|].
  rewrite andb_true_iff, N.eqb_eq, IH. split.
  - intros [-> ->]. reflexivity.
  - intros E. injection E as -> ->. auto.
Qed.

Lemma own_property_in (o : object number) (k : js_string) :
  In k (Object_keys o) -> exists r, own_property o k = Some r.
Proof.
  induction o as [|[k' v] o IH]; cbn [Object_keys map In own_property fst].
  - contradiction.
  - intros [->|H].
    + rewrite (proj2 (js_string_eqb_eq k k) eq_refl). eauto.
    + destruct (js_string_eqb k' k); [eauto|]. apply IH, H.
Qed.

(** An event of the selector carries the value of one of its options. *)
Lemma select_enabled (w : world) (v : js_string) :
  enabled w (Ev_select v) = true ->
  loading (ui w) = false /\ In v (Object_keys (rates (ui w))).
Proof.
  cbn [enabled render selector_disabled selector_options].
  destruct (loading (ui w)); [discriminate|]. cbn [negb andb].
  intros H. split; [reflexivity|].
  apply existsb_exists in H. destruct H as (o & Ho & E).
  apply in_map_iff in Ho. destruct Ho as (k & <- & Hk).
  cbn [option_value] in E. apply js_string_eqb_eq in E. subst. exact Hk.
Qed.

Lemma alerts_perform_all (effs : list effect) (w : world) :
  alerts (perform_all effs w) = alerts w ++ alerts_of effs.
Proof.
  revert w. induction effs as [|eff effs IH]; intros w.
  - cbn. rewrite app_nil_r. reflexivity.
  - unfold perform_all in *. cbn [fold_left]. rewrite IH.
    destruct eff; cbn [perform alerts alerts_of]; try reflexivity.
    rewrite <- app_assoc. reflexivity.
Qed.

Lemma alerts_step (w w' : world) (ev : event) :
  step w ev = Some w' ->
  alerts w' = alerts w ++ alerts_of (reaction (ui w) ev).
Proof.
  unfold step. destruct (enabled w ev); [|discriminate].
  intros E. injection E as <-. rewrite alerts_perform_all.
  destruct ev; reflexivity.
Qed.

Lemma reachable_well_formed (w : world) :
  reachable w -> well_formed w.
Proof.
  induction 1 as [|w ev w' Hr IH Hstep].
  - split; [apply amount_pattern_test_iff; reflexivity|].
    split; [left; reflexivity|].
    split; [reflexivity|discriminate].
  - destruct (reachable_inv w Hr) as (_ & Phase).
    destruct (step_inv w w' ev Hstep) as (En & U & _ & Pd).
    pose proof (alerts_step w w' ev Hstep) as Al.
    destruct IH as (Ia & Is & Ial & Ie).
    unfold well_formed, selection_in_table, nothing_loaded in *.
    unfold awaiting, settled in Phase.
    rewrite Pd, Al, U. clear Pd Al U Hstep w'.
    destruct ev as [fr|v|v|]; cbn [reaction is_settled].
    + (* the fetch settles *)
      cbn [enabled] in En.
      destruct Phase as [(_ & L & E & R & D & T & C)|(P & _)];
        [|congruence].
      destruct (resume_cases fr)
        as [(m & ->)|(r & data & _ & _ & _ & ->)].
      * destruct (ui w) as [a t c rt d l e]. cbn in *. subst.
        repeat split; auto; discriminate.
      * destruct (ui w) as [a t c rt d l e]. cbn in *. subst.
        destruct (Object_keys (doc_usd data)) as [|k ks] eqn:K; cbn.
        -- repeat split; auto; discriminate.
        -- unfold Object_keys in K. rewrite K.
           repeat split; auto; try discriminate;
             try (right; left; reflexivity).
    + (* the amount field *)
      unfold handleAmountChange.
      destruct (regex_test amount_pattern v) eqn:T.
      * apply amount_pattern_test_iff in T.
        destruct (ui w) as [a t c rt d l e]. cbn in *.
        rewrite app_nil_r. auto.
      * cbn. rewrite app_nil_r. auto.
    + (* the selector *)
      destruct (select_enabled w v En) as (L & Hin).
      destruct (ui w) as [a t c rt d l e]. cbn in *.
      rewrite app_nil_r.
      split; [exact Ia|]. split; [right; exact Hin|]. split; [exact Ial|].
      intros m Hm. destruct (Ie m Hm) as (R & _). subst rt. contradiction.
    + (* the button *)
      cbn [enabled render button_disabled] in En.
      destruct (handleConvert_shape (ui w)) as (eff & -> & [[m ->]|[v ->]]);
        destruct (ui w) as [a t c rt d l e]; cbn in *;
        (split; [exact Ia|]); (split; [exact Is|]);
        (split; [|exact Ie]).
      * destruct Phase as [(P & L & _)|(P & _)]; cbn in *.
        -- subst l. discriminate En.
        -- intros F. congruence.
      * rewrite app_nil_r. exact Ial.
Qed.

Lemma run_reachable (evs : list event) :
  forall (w : world) (ws : list world),
    reachable w -> run w evs = Some ws -> Forall reachable ws.
Proof.
  induction evs as [|ev evs IH]; intros w ws Hr H; cbn [run] in H.
  - injection H as <-. constructor; [exact Hr|constructor].
  - destruct (step w ev) as [w'|] eqn:Hstep; [|discriminate].
    destruct (run w' evs) as [ws'|] eqn:Hrun; [|discriminate].
    injection H as <-. constructor; [exact Hr|].
    apply (IH w' ws' (@Reach_step w ev w' Hr Hstep) Hrun).
Qed.

Lemma final_world_reachable (evs : list event) (w : world) :
  final_world evs = Some w -> reachable w.
Proof.
  unfold final_world. destruct (run mount evs) as [ws|] eqn:H; [|discriminate].
  pose proof (run_reachable evs mount ws Reach_mount H) as F.
  clear H. induction F as [|x l Hx F IH]; cbn [map last].
  - discriminate.
  - destruct l as [|y l]; cbn [map] in *.
    + intros E. injection E as <-. exact Hx.
    + exact IH.
Qed.

Lemma world_after_reachable (evs : list event) :
  reachable (Sample.world_after evs).
Proof.
  unfold Sample.world_after.
  destruct (final_world evs) as [w|] eqn:E.
  - apply (final_world_reachable evs w E).
  - apply Reach_mount.
Qed.

(** ** Invariants of the mounted component *)

(** X1.  Whatever the user types and whenever the fetch settles, the
    amount field holds digits, at most one point, digits: the initial "1"
    matches the pattern and [setAmount] is called behind the filter only. *)
Theorem amount_field_keeps_syntax (w : world) :
  reachable w -> amount_syntax (amount (ui w)).
Proof.
  intros Hr. apply (reachable_well_formed w Hr).
Qed.

Lemma amount_field_keeps_syntax_witness :
  reachable (Sample.world_after Sample.keystrokes)
  /\ amount (ui (Sample.world_after Sample.keystrokes)) = str "2.5"
  /\ amount_syntax (amount (ui (Sample.world_after Sample.keystrokes))).
Proof.
  pose proof (world_after_reachable Sample.keystrokes) as Hr.
  split; [exact Hr|]. split; [reflexivity|].
  exact (amount_field_keeps_syntax _ Hr).
Defined.

(** X2.  The selected currency is always the empty string or a key of the
    rate table: it is set to the first key when the document arrives and
    afterwards only to the value of an option.  So a convert action on a
    selected currency always finds its rate. *)
Theorem selected_currency_has_rate (w : world) :
  reachable w ->
  targetCurrency (ui w) <> [] ->
  In (targetCurrency (ui w)) (Object_keys (rates (ui w)))
  /\ exists r,
       own_property (rates (ui w)) (targetCurrency (ui w)) = Some r
       /\ rate_operand (rates (ui w)) (targetCurrency (ui w)) = r.
Proof.
  intros Hr Hne.
  destruct (reachable_well_formed w Hr) as (_ & [E|Hin] & _);
    [contradiction|].
  split; [exact Hin|].
  destruct (own_property_in _ _ Hin) as (r & E).
  exists r. unfold rate_operand. rewrite E. auto.
Qed.

Lemma selected_currency_has_rate_witness :
  reachable (Sample.world_after Sample.session)
  /\ targetCurrency (ui (Sample.world_after Sample.session)) = str "gbp"
  /\ exists r,
       own_property (rates (ui (Sample.world_after Sample.session)))
         (targetCurrency (ui (Sample.world_after Sample.session))) = Some r
       /\ rate_operand (rates (ui (Sample.world_after Sample.session)))
            (targetCurrency (ui (Sample.world_after Sample.session))) = r.
Proof.
  pose proof (world_after_reachable Sample.session) as Hr.
  split; [exact Hr|]. split; [reflexivity|].
  apply (selected_currency_has_rate _ Hr). discriminate.
Defined.

(** X3.  While the fetch is in flight the convert button and the selector
    do nothing, no notification has been raised and there is no result, no
    rate and no selected currency; once it has settled the button works. *)
Theorem nothing_happens_while_loading (w : world) :
  reachable w ->
  (pending w = true ->
   enabled w Ev_click_convert = false
   /\ (forall v, enabled w (Ev_select v) = false)
   /\ alerts w = []
   /\ convertedAmount (ui w) = None
   /\ rates (ui w) = []
   /\ targetCurrency (ui w) = [])
  /\ (pending w = false -> enabled w Ev_click_convert = true).
Proof.
  intros Hr. split; intros P.
  - destruct (reachable_pending w Hr P) as (_ & L & E & R & D & T & C).
    destruct (reachable_well_formed w Hr) as (_ & _ & Al & _).
    cbn [enabled render selector_disabled button_disabled].
    rewrite L. auto 10.
  - destruct (reachable_inv w Hr) as (_ & [(P' & _)|(_ & L)]);
      [congruence|].
    cbn [enabled render button_disabled]. rewrite L. reflexivity.
Qed.

Lemma nothing_happens_while_loading_witness :
  reachable mount
  /\ pending mount = true
  /\ enabled mount Ev_click_convert = false
  /\ alerts mount = [].
Proof.
  split; [apply Reach_mount|]. split; [reflexivity|].
  destruct (proj1 (nothing_happens_while_loading mount Reach_mount) eq_refl)
    as (A & _ & B & _).
  split; [exact A|exact B].
Defined.

(** X4.  After a failed fetch nothing was loaded and no currency can be
    selected, so every convert action is refused: it raises one
    notification and leaves no result, and the error message stays. *)
Theorem no_conversion_after_failure
  (w w' : world) (message : js_string) :
  reachable w ->
  error (ui w) = Some message ->
  step w Ev_click_convert = Some w' ->
  rates (ui w) = []
  /\ (forall v, enabled w (Ev_select v) = false)
  /\ (exists notification, alerts w' = alerts w ++ [notification])
  /\ convertedAmount (ui w') = None
  /\ result_text (render (ui w')) = None
  /\ error (ui w') = Some message.
Proof.
  intros Hr He Hstep.
  destruct (reachable_well_formed w Hr) as (_ & _ & _ & Ie).
  destruct (Ie message He) as (R & T & _).
  destruct (step_inv w w' _ Hstep) as (_ & U & _).
  pose proof (alerts_step w w' _ Hstep) as Al.
  cbn [reaction] in U, Al.
  destruct (handleConvert_fails (ui w) (or_intror T)) as (n & E & _).
  rewrite E in U, Al.
  split; [exact R|]. split.
  { intros v. cbn [enabled render selector_disabled selector_options].
    rewrite R. destruct (loading (ui w)); reflexivity. }
  split; [exists n; exact Al|].
  rewrite U. destruct (ui w) as [a t c rt d l e]. cbn in *. subst.
  repeat split.
Qed.

Lemma no_conversion_after_failure_witness :
  reachable Sample.failed_world
  /\ error (ui Sample.failed_world)
     = Some (str "Network response was not ok. Please try again later.")
  /\ step Sample.failed_world Ev_click_convert
     = Some (Sample.world_after
               [Ev_fetch_settled Sample.http_500; Ev_click_convert])
  /\ convertedAmount
       (ui (Sample.world_after
              [Ev_fetch_settled Sample.http_500; Ev_click_convert])) = None
  /\ exists notification,
       alerts (Sample.world_after
                 [Ev_fetch_settled Sample.http_500; Ev_click_convert])
       = alerts Sample.failed_world ++ [notification].
Proof.
  pose proof (world_after_reachable [Ev_fetch_settled Sample.http_500])
    as Hr.
  assert (S : step Sample.failed_world Ev_click_convert
              = Some (Sample.world_after
                        [Ev_fetch_settled Sample.http_500;
                         Ev_click_convert]))
    by (vm_compute; reflexivity).
  split; [exact Hr|]. split; [reflexivity|]. split; [exact S|].
  destruct (no_conversion_after_failure _ _ _ Hr eq_refl S)
    as (_ & _ & A & C & _).
  split; [exact C|exact A].
Defined.

(** ** The amount field and the amount guard *)

Lemma last_default (A : Type) (l : list A) (a d : A) :
  last (a :: l) d = last l a.
Proof.
  revert a d. induction l as [|b l IH]; intros a d; [reflexivity|].
  change (last (a :: b :: l) d) with (last (b :: l) d).
  rewrite !IH. reflexivity.
Qed.

(** X5.  However many values are offered to the amount field in a row, the
    field ends up holding the last one that matched the pattern, or what
    it held before when none did; rejected values leave no trace and
    nothing else in the state moves. *)
Theorem amount_field_holds_last_accepted
  (values : list js_string) (st : state) :
  typed values st
  = set_state st
      (SetAmount
         (last (filter (regex_test amount_pattern) values) (amount st))).
Proof.
  revert st. induction values as [|v values IH]; intros st.
  - destruct st; reflexivity.
  - unfold typed in *. cbn [fold_left filter]. rewrite IH.
    unfold handleAmountChange.
    destruct (regex_test amount_pattern v).
    + rewrite last_default. destruct st; reflexivity.
    + reflexivity.
Qed.

(** X6.  The filter accepts every prefix of a value it accepts: an
    accepted value can be typed one character at a time, and deleting
    characters from its end never gets stuck. *)
Theorem amount_filter_prefix_closed (s t : js_string) (st : state) :
  handleAmountChange (s ++ t) st = [SetAmount (s ++ t)] ->
  handleAmountChange s st = [SetAmount s].
Proof.
  unfold handleAmountChange.
  destruct (regex_test amount_pattern (s ++ t)) eqn:E; [|discriminate].
  intros _. apply amount_pattern_test_iff in E.
  assert (H : amount_syntax s).
  { remember (s ++ t) as u eqn:Eu.
    destruct E as [ip Hip|ip fp Hip Hfp].
    - subst ip. apply Forall_app in Hip. apply Amount_digits, Hip.
    - apply app_eq_app in Eu.
      destruct Eu as (l & [(-> & _)|(-> & Efp)]).
      + apply Forall_app in Hip. apply Amount_digits, Hip.
      + destruct l as [|c l]; cbn [app] in Efp.
        * rewrite app_nil_r. apply Amount_digits, Hip.
        * injection Efp as <- ->. apply Forall_app in Hfp.
          apply Amount_point; [exact Hip|apply Hfp]. }
  apply amount_pattern_test_iff in H. rewrite H. reflexivity.
Qed.

Lemma amount_filter_prefix_closed_witness :
  handleAmountChange (str "12." ++ str "50") Sample.loaded
  = [SetAmount (str "12." ++ str "50")]
  /\ handleAmountChange (str "12.") Sample.loaded = [SetAmount (str "12.")].
Proof.
  assert (H : handleAmountChange (str "12." ++ str "50") Sample.loaded
              = [SetAmount (str "12." ++ str "50")]) by reflexivity.
  split; [exact H|].
  exact (amount_filter_prefix_closed (str "12.") (str "50") Sample.loaded H).
Defined.

(** A digit or a point is neither white space nor a sign. *)
Lemma amount_char_plain (c : code_unit) :
  is_digit c = true \/ c = 46%N ->
  is_white_space c = false /\ N.eqb c 43 = false /\ N.eqb c 45 = false
  /\ N.eqb c 73 = false.
Proof.
  intros H.
  assert (B : (46 <= c <= 57)%N).
  { destruct H as [H| ->]; [|lia].
    unfold is_digit in H. apply andb_true_iff in H.
    rewrite !N.leb_le in H. lia. }
  unfold is_white_space. cbn [existsb].
  repeat match goal with
         | |- context [N.eqb c ?k] =>
             rewrite (proj2 (N.eqb_neq c k)) by lia
         end.
  auto.
Qed.

(** A string that starts with a digit or a point is read as it stands,
    without a sign. *)
Lemma parseFloat_plain (c : code_unit) (s : js_string) :
  is_digit c = true \/ c = 46%N ->
  parseFloat (c :: s)
  = match parse_unsigned (c :: s) with
    | None => js_NaN
    | Some (m, e) => number_of_decimal false m e
    end.
Proof.
  intros H. destruct (amount_char_plain c H) as (W & P & M & I).
  unfold parseFloat. cbn [trim_start]. rewrite W.
  cbn [split_sign]. rewrite P, M.
  change (starts_with (str "Infinity") (c :: s))
    with (N.eqb 73 c && starts_with (str "nfinity") s).
  rewrite N.eqb_sym, I. reflexivity.
Qed.

Lemma round_aux_not_below_zero (mx ex : Z) (lx : location) :
  not_below_zero (binary_round_aux prec emax false mx ex lx).
Proof.
  unfold binary_round_aux.
  destruct (shr_fexp prec emax mx ex lx) as [mrs' e'].
  destruct (shr_fexp prec emax _ e' loc_Exact) as [mrs'' e''].
  destruct (shr_m mrs'') as [|m|m].
  - right. reflexivity.
  - destruct (Z.leb e'' (emax - prec)); right; reflexivity.
  - left. reflexivity.
Qed.

Lemma number_of_decimal_not_below_zero (m e : Z) :
  not_below_zero (number_of_decimal false m e).
Proof.
  unfold number_of_decimal.
  destruct m as [|p|p]; try (right; reflexivity).
  destruct (0 <=? e)%Z.
  - cbn [cond_Zopp].
    pose proof (Z.pow_nonneg 10 e) as Hp.
    destruct (Z.pos p * 10 ^ e)%Z as [|q|q] eqn:E.
    + right. reflexivity.
    + unfold binary_normalize, binary_round.
      destruct (shl_align q 0 _) as [mz ez].
      apply round_aux_not_below_zero.
    + lia.
  - cbn [SFdiv].
    destruct (SFdiv_core_binary prec emax (Z.pos p) 0 _ 0) as [[mz ez] lz].
    apply round_aux_not_below_zero.
Qed.

Lemma amount_syntax_head (s : js_string) :
  amount_syntax s ->
  s = [] \/ exists c s', s = c :: s' /\ (is_digit c = true \/ c = 46%N).
Proof.
  intros [ip Hip|ip fp Hip Hfp].
  - destruct Hip as [|c ip Hc Hip]; [left; reflexivity|].
    right. eauto.
  - right. destruct Hip as [|c ip Hc Hip]; cbn [app]; eauto.
Qed.

(** X7.  A value that the filter accepted never parses to a number below
    zero: it is NaN (no digit at all) or at least zero.  Behind the filter
    the amount guard can only meet NaN, zero or a positive number. *)
Theorem accepted_amount_not_below_zero (s : js_string) :
  amount_syntax s -> not_below_zero (parseFloat s).
Proof.
  intros H. destruct (amount_syntax_head s H) as [->|(c & s' & -> & Hc)].
  - left. reflexivity.
  - rewrite (parseFloat_plain c s' Hc).
    destruct (parse_unsigned (c :: s')) as [[m e]|].
    + apply number_of_decimal_not_below_zero.
    + left. reflexivity.
Qed.

Lemma accepted_amount_not_below_zero_witness :
  amount_syntax (str "12.5") /\ not_below_zero (parseFloat (str "12.5")).
Proof.
  assert (H : amount_syntax (str "12.5")).
  { apply amount_pattern_test_iff. reflexivity. }
  split; [exact H|exact (accepted_amount_not_below_zero (str "12.5") H)].
Defined.

Lemma zeros_value (ds : js_string) :
  Forall (fun c => c = 48%N) ds -> digits_value ds = 0%Z.
Proof.
  intros H. induction H as [|c ds -> _ IH]; [reflexivity|].
  unfold digits_value in *. cbn [fold_left]. exact IH.
Qed.

Lemma zeros_span (s : js_string) :
  zeros_and_points s ->
  Forall (fun c => c = 48%N) (fst (span_digits s))
  /\ zeros_and_points (snd (span_digits s)).
Proof.
  intros H. induction H as [|c s Hc Hs IH]; cbn [span_digits].
  - split; constructor.
  - destruct Hc as [-> | ->]; cbn [is_digit N.leb N.compare Pos.compare
                                  Pos.compare_cont andb].
    + destruct (span_digits s) as [ds rest]. cbn [fst snd] in *.
      split; [constructor; [reflexivity|apply IH]|apply IH].
    + cbn. split; [constructor|].
      constructor; [right; reflexivity|exact Hs].
Qed.

Lemma zeros_parse (s : js_string) :
  zeros_and_points s ->
  parse_unsigned s = None \/ exists e, parse_unsigned s = Some (0%Z, e).
Proof.
  intros H. unfold parse_unsigned.
  destruct (zeros_span s H) as (Zi & Zr).
  destruct (span_digits s) as [ip r1]. cbn [fst snd] in *.
  destruct r1 as [|c r2].
  - destruct ip; [left; reflexivity|].
    right. rewrite (zeros_value _ Zi). eauto.
  - apply Forall_cons_iff in Zr. destruct Zr as (_ & Zr).
    destruct (N.eqb c 46).
    + destruct (zeros_span r2 Zr) as (Zf & _).
      destruct (span_digits r2) as [fp r3]. cbn [fst] in Zf.
      assert (V : digits_value (ip ++ fp) = 0%Z).
      { apply zeros_value, Forall_app. auto. }
      rewrite V. destruct ip; destruct fp; eauto.
    + destruct ip; [left; reflexivity|].
      right. rewrite (zeros_value _ Zi). eauto.
Qed.

(** X8.  An amount written with zeros and points only ("0", "0.00", ".",
    "00.0" and the like) is always refused: the convert action resets the
    result and raises the notification about the amount, whatever currency
    is selected. *)
Theorem zero_amount_refused (st : state) :
  zeros_and_points (amount st) ->
  handleConvert st
  = [SetConvertedAmount None;
     Alert (str "Please enter a valid positive amount.")].
Proof.
  intros H. apply handleConvert_rejected. unfold positive_amount.
  destruct (amount st) as [|c s] eqn:E.
  - discriminate.
  - assert (Hc : is_digit c = true \/ c = 46%N).
    { apply Forall_cons_iff in H. destruct H as ([-> | ->] & _); auto. }
    rewrite (parseFloat_plain c s Hc).
    destruct (zeros_parse (c :: s) H) as [-> |(e & ->)]; discriminate.
Qed.

Lemma zero_amount_refused_witness :
  zeros_and_points (amount Sample.zero_amount)
  /\ handleConvert Sample.zero_amount
     = [SetConvertedAmount None;
        Alert (str "Please enter a valid positive amount.")].
Proof.
  assert (H : zeros_and_points (amount Sample.zero_amount)).
  { change (zeros_and_points [48; 46; 48; 48]%N).
    repeat (constructor; [first [left; reflexivity|right; reflexivity]|]).
    constructor. }
  split; [exact H|exact (zero_amount_refused _ H)].
Defined.

(** ** Edges of the convert action and of the loader *)

(** X9.  If the selected currency is not a key of the rate table, the
    convert action raises nothing and stores the text "NaN": the missing
    rate turns the product into NaN, which [toFixed] prints by name. *)
Theorem missing_rate_stores_NaN (st : state) :
  positive_amount (amount st) ->
  targetCurrency st <> [] ->
  own_property (rates st) (targetCurrency st) = None ->
  handleConvert st
  = [SetConvertedAmount None; SetConvertedAmount (Some (str "NaN"))]
  /\ alerts_of (handleConvert st) = []
  /\ convertedAmount (commit (handleConvert st) st) = Some (str "NaN").
Proof.
  intros Hpos Hcur Hnone.
  rewrite convertedAmount_after_convert.
  rewrite (handleConvert_accepted st Hpos Hcur).
  unfold rate_operand. rewrite Hnone.
  assert (E : num_mul (parseFloat (amount st)) js_NaN = js_NaN).
  { destruct (parseFloat (amount st)); reflexivity. }
  rewrite E. repeat split.
Qed.

Lemma missing_rate_stores_NaN_witness :
  positive_amount (amount Sample.unlisted)
  /\ own_property (rates Sample.unlisted) (targetCurrency Sample.unlisted)
     = None
  /\ convertedAmount (commit (handleConvert Sample.unlisted) Sample.unlisted)
     = Some (str "NaN").
Proof.
  split; [reflexivity|]. split; [reflexivity|].
  apply (missing_rate_stores_NaN Sample.unlisted).
  - reflexivity.
  - discriminate.
  - reflexivity.
Defined.

(** X10.  On every path on which the fetch does not deliver a document
    (the request is rejected, the status is not 2xx, the body cannot be
    read) the loader raises no notification and changes two things only:
    it stores a message and lowers the loading flag.  The message is the
    one of the [Error] caught, the fixed text about the network for a
    status that is not ok, whatever the body, and the fixed text about an
    unknown error for anything else that was thrown. *)
Theorem loader_failure_keeps_state (fr : fetch_result) (st : state) :
  (forall data, ~ delivers fr data) ->
  exists message,
    fetchCurrencyData_resume fr
    = [SetError (Some message); SetLoading false]
    /\ commit (fetchCurrencyData_resume fr) st
       = {| amount := amount st;
            targetCurrency := targetCurrency st;
            convertedAmount := convertedAmount st;
            rates := rates st;
            date := date st;
            loading := false;
            error := Some message |}
    /\ message
       = match fr with
         | Fetch_rejected (Thrown_Error m) => m
         | Fetch_rejected Thrown_other => str "An unknown error occurred."
         | Fetch_response r =>
             if ok r
             then match json r with
                  | inl (Thrown_Error m) => m
                  | _ => str "An unknown error occurred."
                  end
             else str "Network response was not ok. Please try again later."
         end.
Proof.
  intros Hfail.
  unfold fetchCurrencyData_resume, fetchCurrencyData_try.
  destruct fr as [[m|]|r].
  - exists m. repeat split.
  - eexists. repeat split.
  - destruct (ok r) eqn:Hok; cbn [negb].
    + destruct (json r) as [[m|]|data] eqn:Hjson.
      * exists m. repeat split.
      * eexists. repeat split.
      * elim (Hfail data). exists r. auto.
    + eexists. repeat split.
Qed.

Lemma loader_failure_keeps_state_witness :
  (forall data, ~ delivers Sample.http_500 data)
  /\ exists message,
       fetchCurrencyData_resume Sample.http_500
       = [SetError (Some message); SetLoading false]
       /\ message
          = str "Network response was not ok. Please try again later.".
Proof.
  assert (H : forall data, ~ delivers Sample.http_500 data).
  { intros data (r & E & Hok & _). injection E as <-. discriminate Hok. }
  split; [exact H|].
  destruct (loader_failure_keeps_state Sample.http_500 initial_state H)
    as (message & E & _ & M).
  exists message. split; [exact E|exact M].
Defined.

(** X11.  A document whose rate mapping is empty loads successfully but
    selects nothing: the target currency stays empty, the selector is
    enabled without any option, and a convert action on a positive amount
    is refused with the notification about the currency. *)
Theorem empty_table_selects_nothing
  (w : world) (r : response) (data : api_document) :
  reachable w ->
  pending w = true ->
  ok r = true ->
  json r = inr data ->
  doc_usd data = [] ->
  exists w',
    step w (Ev_fetch_settled (Fetch_response r)) = Some w'
    /\ fetch_state_of (ui w') = FS_success (Some (doc_date data)) []
    /\ targetCurrency (ui w') = []
    /\ selector_disabled (render (ui w')) = false
    /\ selector_options (render (ui w')) = []
    /\ (positive_amount (amount (ui w')) ->
        handleConvert (ui w')
        = [SetConvertedAmount None;
           Alert (str "Please select a target currency.")]).
Proof.
  intros Hr P Hok Hjson Hempty.
  destruct (reachable_pending w Hr P) as (_ & L & E & R & D & T & C).
  destruct (settle_step w (Fetch_response r) P) as (w' & Hstep & U).
  exists w'. split; [exact Hstep|].
  assert (Tw : targetCurrency (ui w') = []).
  { rewrite U, (resume_document r data Hok Hjson), Hempty.
    destruct (ui w) as [a t c rt d l e]. cbn in *. exact T. }
  assert (V : fetch_state_of (ui w') = FS_success (Some (doc_date data)) []
              /\ selector_disabled (render (ui w')) = false
              /\ selector_options (render (ui w')) = []).
  { rewrite U, (resume_document r data Hok Hjson), Hempty.
    destruct (ui w) as [a t c rt d l e]. cbn in *. subst. repeat split. }
  destruct V as (V1 & V2 & V3).
  repeat split; try assumption.
  intros Hpos. apply (handleConvert_no_currency (ui w') Hpos Tw).
Qed.

Lemma empty_table_selects_nothing_witness :
  reachable mount
  /\ pending mount = true
  /\ exists w',
       step mount
         (Ev_fetch_settled (Sample.ok_response Sample.empty_document))
       = Some w'
       /\ targetCurrency (ui w') = []
       /\ selector_options (render (ui w')) = [].
Proof.
  split; [apply Reach_mount|]. split; [reflexivity|].
  destruct (empty_table_selects_nothing mount
              {| status := 200; json := inr Sample.empty_document |}
              Sample.empty_document
              Reach_mount eq_refl eq_refl eq_refl eq_refl)
    as (w' & S & _ & T & _ & O & _).
  exists w'. auto.
Defined.

(** X12.  Only the convert action touches the conversion result: editing
    the amount, picking another currency and the settling of the fetch
    leave it as it is.  A result on display is therefore not recomputed
    when another currency is picked: it is shown, unchanged, next to the
    new currency code. *)
Theorem result_survives_edits (w w' : world) (ev : event) :
  step w ev = Some w' ->
  ev <> Ev_click_convert ->
  convertedAmount (ui w') = convertedAmount (ui w)
  /\ (forall v,
        ev = Ev_select v ->
        result_text (render (ui w'))
        = match result_text (render (ui w)) with
          | Some (c, _) => Some (c, toUpperCase v)
          | None => None
          end).
Proof.
  intros Hstep Hev.
  destruct (step_inv w w' ev Hstep) as (_ & U & _).
  rewrite U. clear U Hstep.
  destruct ev as [fr|v|v|]; cbn [reaction].
  - split; [|discriminate].
    destruct (resume_cases fr) as [(m & ->)|(r & data & _ & _ & _ & ->)].
    + reflexivity.
    + rewrite !commit_cons, commit_app.
      destruct (Object_keys (doc_usd data)); reflexivity.
  - split; [|discriminate].
    unfold handleAmountChange.
    destruct (regex_test amount_pattern v); reflexivity.
  - split; [reflexivity|].
    intros v' E. injection E as <-.
    destruct (ui w) as [a t c rt d l e]. cbn.
    destruct (truthy_opt c && negb (truthy_opt e)); [|reflexivity].
    destruct c; reflexivity.
  - now elim Hev.
Qed.

Lemma result_survives_edits_witness :
  step Sample.shown (Ev_select (str "gbp"))
  = Some (Sample.world_after
            [Ev_fetch_settled (Sample.ok_response Sample.document);
             Ev_click_convert; Ev_select (str "gbp")])
  /\ result_text (render (ui Sample.shown))
     = Some (str "0.90", Some (str "EUR"))
  /\ result_text
       (render
          (ui (Sample.world_after
                 [Ev_fetch_settled (Sample.ok_response Sample.document);
                  Ev_click_convert; Ev_select (str "gbp")])))
     = Some (str "0.90", Some (str "GBP")).
Proof.
  assert (S : step Sample.shown (Ev_select (str "gbp"))
              = Some (Sample.world_after
                        [Ev_fetch_settled
                           (Sample.ok_response Sample.document);
                         Ev_click_convert; Ev_select (str "gbp")]))
    by (vm_compute; reflexivity).
  split; [exact S|]. split; [reflexivity|].
  assert (N : Ev_select (str "gbp") <> Ev_click_convert) by discriminate.
  rewrite (proj2 (result_survives_edits _ _ _ S N) (str "gbp") eq_refl).
  reflexivity.
Defined.

(** ** The text of a result *)

Section ResultText.

Local Open Scope Z_scope.

Lemma toFixed_shape (x : number) :
  below_1e21 x -> two_decimal_shape (toFixed 2 x).
Proof.
  destruct x as [s|s| |s m e]; cbn [below_1e21]; try contradiction.
  - intros _. cbn [toFixed].
    destruct (fixed_notation_two 0 (Z.le_refl 0))
      as (a & d1 & d2 & E & Ha & Da & D1 & D2 & _).
    exists false, a, d1, d2. rewrite E. auto.
  - intros Hsmall. cbn [toFixed]. rewrite Hsmall.
    destruct (nearest_scaled_spec m e) as (Hn & _).
    destruct (fixed_notation_two _ Hn)
      as (a & d1 & d2 & E & Ha & Da & D1 & D2 & _).
    exists s, a, d1, d2. rewrite E.
    split; [destruct s; reflexivity|auto].
Qed.

Lemma digits2_bound (m : positive) :
  Z.pos m < 2 ^ Z.pos (digits2_pos m).
Proof.
  induction m as [m IH|m IH|]; cbn [digits2_pos];
    try (rewrite Pos2Z.inj_succ, Z.pow_succ_r by lia; lia).
  reflexivity.
Qed.

(** The mantissa of a binary64 value has 53 bits at most. *)
Lemma bounded_mantissa (m : positive) (e : Z) :
  bounded prec emax m e = true -> Z.pos m < 2 ^ 53.
Proof.
  unfold bounded, canonical_mantissa, fexp, prec.
  intros H. apply andb_true_iff in H. destruct H as (H & _).
  apply Z.eqb_eq in H.
  assert (D : Z.pos (digits2_pos m) <= 53) by lia.
  apply Z.lt_le_trans with (2 ^ Z.pos (digits2_pos m)).
  - apply digits2_bound.
  - apply Z.pow_le_mono_r; lia.
Qed.

Lemma drop_zeros_nil (l : js_string) :
  drop_zeros l = [] -> Forall (fun c => c = 48%N) l.
Proof.
  induction l as [|c l IH]; cbn [drop_zeros]; [constructor|].
  destruct (N.eqb c 48) eqn:E; [|discriminate].
  apply N.eqb_eq in E. intros H. constructor; auto.
Qed.

Lemma strip_nonempty (ds : js_string) :
  digits_value ds <> 0 -> strip_trailing_zeros ds <> [].
Proof.
  intros V E. apply V, zeros_value.
  unfold strip_trailing_zeros in E.
  assert (R : drop_zeros (rev ds) = []).
  { destruct (drop_zeros (rev ds)) as [|c l]; [reflexivity|].
    cbn [rev] in E. apply app_eq_nil in E. destruct E as [_ E].
    discriminate E. }
  apply drop_zeros_nil in R. apply Forall_rev in R.
  rewrite rev_involutive in R. exact R.
Qed.

Lemma digits_candidate_pos (m : positive) (e X j c : Z) :
  0 < X -> 0 <= j ->
  digits_candidate (S754_finite false m e) X j = Some c -> 0 < c.
Proof.
  intros HX Hj. unfold digits_candidate. cbv zeta.
  assert (P : 0 < 10 ^ j) by (apply Z.pow_pos_nonneg; lia).
  assert (L : 0 <= X / 10 ^ j) by (apply Z.div_pos; lia).
  set (lo := X / 10 ^ j) in *. clearbody lo.
  destruct (number_eqb (binary_normalize prec emax (lo * 10 ^ j) 0 false)
              (S754_finite false m e)) eqn:Rlo.
  - assert (N : lo <> 0).
    { intros ->. cbn in Rlo. discriminate Rlo. }
    clear Rlo. destruct (number_eqb _ _).
    + intros E. injection E as <-.
      destruct (_ <? _); [lia|]. destruct (_ <? _); [lia|].
      destruct (Z.even lo); lia.
    + intros E. injection E as <-. lia.
  - clear Rlo. destruct (number_eqb _ _); [|discriminate].
    intros E. injection E as <-. lia.
Qed.

Lemma shortest_digits_pos (m : positive) (e X : Z) (d : nat)
  (ks : list nat) (c j : Z) :
  0 < X ->
  shortest_digits (S754_finite false m e) X d ks = (c, j) -> 0 < c.
Proof.
  intros HX. induction ks as [|k ks IH]; cbn [shortest_digits].
  - intros E. injection E as <- _. exact HX.
  - destruct (digits_candidate _ X (Z.of_nat (d - k))) as [c'|] eqn:Ec.
    + intros E. injection E as <- _.
      apply (digits_candidate_pos m e X (Z.of_nat (d - k)) c' HX); [lia|].
      exact Ec.
    + exact IH.
Qed.

Lemma toString_exponential_nonempty (m : positive) (e X : Z) :
  0 < X -> toString_exponential (S754_finite false m e) X <> [].
Proof.
  intros HX. unfold toString_exponential.
  destruct (shortest_digits _ X _ _) as [c j] eqn:E.
  apply shortest_digits_pos in E; [|exact HX].
  destruct (decimal_digits_spec c) as (_ & _ & V); [lia|].
  pose proof (strip_nonempty (decimal_digits c)) as S.
  destruct (strip_trailing_zeros (decimal_digits c)) as [|d1 [|d2 rest]].
  - elim S; [lia|reflexivity].
  - discriminate.
  - discriminate.
Qed.

(** Whatever binary64 value it is given, [toFixed(2)] returns some text. *)
Lemma toFixed_nonempty (x : number) :
  valid_binary prec emax x = true -> toFixed 2 x <> [].
Proof.
  destruct x as [s|[|]| |s m e]; cbn [valid_binary toFixed];
    try discriminate.
  intros B. pose proof (bounded_mantissa m e B) as Hm.
  assert (N : forall t, t <> [] -> (if s then str "-" else []) ++ t <> []).
  { intros t Ht E. apply app_eq_nil in E. destruct E as [_ E]. auto. }
  apply N.
  destruct (at_least_1e21 m e) eqn:Big.
  - apply toString_exponential_nonempty.
    unfold at_least_1e21 in Big.
    destruct (0 <=? e) eqn:He.
    + apply Z.leb_le in He. pose proof (Z.pow_pos_nonneg 2 e). lia.
    + apply Z.leb_gt in He. apply Z.leb_le in Big.
      assert (1 <= 2 ^ (- e)).
      { pose proof (Z.pow_pos_nonneg 2 (- e)). lia. }
      assert (10 ^ 21 * 1 <= 10 ^ 21 * 2 ^ (- e))
        by (apply Z.mul_le_mono_nonneg_l; lia).
      assert (2 ^ 53 < 10 ^ 21) by reflexivity.
      lia.
  - destruct (nearest_scaled_spec m e) as (Hn & _).
    destruct (fixed_notation_two _ Hn) as (a & d1 & d2 & -> & _).
    destruct a; discriminate.
Qed.

End ResultText.

(** X13.  When the product is finite and below [10^21] in magnitude, the
    result the convert action stores has the form [-]d...d.dd: an optional
    minus sign, at least one digit, a point and exactly two digits. *)
Theorem result_has_two_decimals (st : state) :
  positive_amount (amount st) ->
  targetCurrency st <> [] ->
  below_1e21
    (num_mul (parseFloat (amount st))
       (rate_operand (rates st) (targetCurrency st))) ->
  exists s,
    convertedAmount (commit (handleConvert st) st) = Some s
    /\ two_decimal_shape s.
Proof.
  intros Hpos Hcur Hsmall.
  rewrite convertedAmount_after_convert.
  rewrite (handleConvert_accepted st Hpos Hcur).
  eexists. split; [reflexivity|]. apply toFixed_shape, Hsmall.
Qed.

Lemma result_has_two_decimals_witness :
  positive_amount (amount Sample.loaded)
  /\ targetCurrency Sample.loaded <> []
  /\ exists s,
       convertedAmount (commit (handleConvert Sample.loaded) Sample.loaded)
       = Some s
       /\ two_decimal_shape s.
Proof.
  split; [reflexivity|]. split; [discriminate|].
  apply (result_has_two_decimals Sample.loaded).
  - reflexivity.
  - discriminate.
  - reflexivity.
Defined.

(** X14.  A result that was stored is displayed: [toFixed] never returns
    the empty string, so the test [convertedAmount && !error] of the view
    hides a result only when an error message is set.  After an accepted
    convert action in a state without error message the view shows the
    result next to the selected currency in upper case. *)
Theorem stored_result_is_displayed (st : state) :
  positive_amount (amount st) ->
  targetCurrency st <> [] ->
  truthy_opt (error st) = false ->
  valid_binary prec emax
    (num_mul (parseFloat (amount st))
       (rate_operand (rates st) (targetCurrency st))) = true ->
  result_text (render (commit (handleConvert st) st))
  = Some (toFixed 2 (num_mul (parseFloat (amount st))
                       (rate_operand (rates st) (targetCurrency st))),
          toUpperCase (targetCurrency st)).
Proof.
  intros Hpos Hcur Herr Hvalid.
  rewrite (handleConvert_accepted st Hpos Hcur).
  pose proof (toFixed_nonempty _ Hvalid) as Hne.
  destruct st as [a t c rt d l e]. cbn in *.
  rewrite Herr.
  destruct (toFixed 2 (num_mul (parseFloat a) (rate_operand rt t)));
    [now elim Hne|reflexivity].
Qed.

Lemma stored_result_is_displayed_witness :
  positive_amount (amount Sample.loaded)
  /\ targetCurrency Sample.loaded <> []
  /\ result_text (render (commit (handleConvert Sample.loaded) Sample.loaded))
     = Some (str "0.90", Some (str "EUR")).
Proof.
  split; [reflexivity|]. split; [discriminate|].
  rewrite (stored_result_is_displayed Sample.loaded).
  - reflexivity.
  - reflexivity.
  - discriminate.
  - reflexivity.
  - reflexivity.
Defined.

(** ** The guard and the notifications *)

(** X15.  The three tests of the amount guard come to one: an amount is
    let through exactly when it parses to a number above zero.  The test
    for the empty string adds nothing, since the empty string parses to
    NaN. *)
Theorem amount_guard_is_positivity (a : js_string) :
  (amount_rejected a = false <-> positive_amount a)
  /\ (amount_rejected a = true <-> ~ positive_amount a)
  /\ amount_rejected a
     = isNaN (parseFloat a) || num_leb (parseFloat a) num_zero.
Proof.
  pose proof (amount_rejected_iff a) as E. unfold positive_amount.
  split; [|split].
  - rewrite E. destruct (num_ltb num_zero (parseFloat a)); cbn [negb];
      intuition congruence.
  - rewrite E. destruct (num_ltb num_zero (parseFloat a)); cbn [negb];
      intuition congruence.
  - destruct a as [|c a]; reflexivity.
Qed.

Lemma loader_raises_nothing (fr : fetch_result) :
  alerts_of (fetchCurrencyData_resume fr) = [].
Proof.
  destruct (resume_cases fr) as [(m & ->)|(r & data & _ & _ & _ & ->)].
  - reflexivity.
  - cbn [alerts_of].
    destruct (Object_keys (doc_usd data)); reflexivity.
Qed.

(** X16.  Notifications come from refused convert actions and from
    nothing else: typing, picking a currency and the settling of the fetch
    raise none, an accepted convert action raises none, and a convert
    action whose validation fails raises exactly one. *)
Theorem notifications_come_from_refused_converts
  (w w' : world) (ev : event) :
  step w ev = Some w' ->
  (ev = Ev_click_convert
   /\ validation_fails (ui w)
   /\ exists notification,
        alerts w' = alerts w ++ [notification] /\ notification <> [])
  \/ ((ev <> Ev_click_convert \/ ~ validation_fails (ui w))
      /\ alerts w' = alerts w).
Proof.
  intros Hstep. rewrite (alerts_step w w' ev Hstep).
  destruct ev as [fr|v|v|]; cbn [reaction].
  - right. rewrite loader_raises_nothing, app_nil_r.
    split; [left; discriminate|reflexivity].
  - right. unfold handleAmountChange.
    destruct (regex_test amount_pattern v); cbn [alerts_of];
      rewrite app_nil_r; (split; [left; discriminate|reflexivity]).
  - right. cbn [handleCurrencyChange alerts_of]. rewrite app_nil_r.
    split; [left; discriminate|reflexivity].
  - destruct (positive_amount_dec (amount (ui w))) as [P|P].
    + destruct (targetCurrency (ui w)) as [|c t] eqn:T.
      * left. split; [reflexivity|].
        split; [right; exact T|].
        rewrite (handleConvert_no_currency (ui w) P T).
        eexists. split; [reflexivity|discriminate].
      * right. split.
        -- right. intros [F|F]; [exact (F P)|congruence].
        -- rewrite (handleConvert_accepted (ui w) P) by congruence.
           cbn [alerts_of]. apply app_nil_r.
    + left. split; [reflexivity|]. split; [left; exact P|].
      rewrite (handleConvert_rejected (ui w) P).
      eexists. split; [reflexivity|discriminate].
Qed.

Lemma notifications_come_from_refused_converts_witness :
  step Sample.failed_world Ev_click_convert
  = Some (Sample.world_after
            [Ev_fetch_settled Sample.http_500; Ev_click_convert])
  /\ alerts (Sample.world_after
               [Ev_fetch_settled Sample.http_500; Ev_click_convert])
     = [str "Please select a target currency."]
  /\ (validation_fails (ui Sample.failed_world)
      \/ alerts (Sample.world_after
                   [Ev_fetch_settled Sample.http_500; Ev_click_convert])
         = alerts Sample.failed_world).
Proof.
  assert (S : step Sample.failed_world Ev_click_convert
              = Some (Sample.world_after
                        [Ev_fetch_settled Sample.http_500;
                         Ev_click_convert]))
    by (vm_compute; reflexivity).
  split; [exact S|]. split; [reflexivity|].
  destruct (notifications_come_from_refused_converts _ _ _ S)
    as [(_ & F & _)|(_ & A)]; [left; exact F|right; exact A].
Defined.
